(** * Balance overlay and admission pool of the EVM module

    A shallow embedding of
      - [cosmos/x/evm/plugins/state/bank/manager.go]  (package [bank]):
        the snapshot stack of balance journals and its replay ([Commit])
        against the bank keeper;
      - the [EthTxPool] wrapper (package [mempool]): [checkTxSigner],
        [Insert] and [Remove];
      - [eth/core/constants.go]: [ReservedAddress].

    Go values are modelled as follows.  A [*big.Int] is a [Z] (a [nil]
    pointer is the [None] of a map lookup); [common.Address] and
    [sdk.AccAddress] are byte strings; Go maps are [gmap]s; an [error]
    is an [option Error] with [None] for [nil]; a Go [int] is a [Z];
    a [uint64] nonce is an [N].  Methods with a pointer receiver take the
    receiver and return its new value. *)

From Stdlib Require Import ZArith NArith Lia.
From Stdlib Require Import Strings.Byte.
From stdpp Require Import gmap strings list fin_maps.

Local Open Scope Z_scope.

(** ** Bytes, addresses, hashes *)

#[global] Instance byte_eq_dec : EqDecision byte := Byte.byte_eq_dec.
#[global] Instance byte_countable : Countable byte :=
  inj_countable Byte.to_N Byte.of_N Byte.of_to_N.

(** [common.Address] is [[20]byte], [sdk.AccAddress] is [[]byte]. *)
Abbreviation Address := (list byte) (only parsing).
Abbreviation AccAddress := (list byte) (only parsing).
(** [common.Hash] is [[32]byte], read as a 256-bit number; the zero value
    of the type is [0]. *)
Abbreviation Hash := N (only parsing).

Definition AddressLength : nat := 20.

(** [common.BytesToAddress]: when [b] is longer than an address it is
    cropped from the left, and it is copied right-aligned into a zeroed
    array. *)
Definition BytesToAddress (b : list byte) : Address :=
  let b := drop (length b - AddressLength)%nat b in
  replicate (AddressLength - length b)%nat x00 ++ b.

(** [Address.Bytes]: the slice [a[:]]. *)
Definition Bytes (a : Address) : AccAddress := a.

(** [eth/core/constants.go]:
    [common.HexToAddress("0xfF06ad5d076fa274B49C297f3fE9e29B5bA9AaDC")]. *)
Definition ReservedAddress : Address :=
  [xff; x06; xad; x5d; x07; x6f; xa2; x74; xb4; x9c;
   x29; x7f; x3f; xe9; xe2; x9b; x5b; xa9; xaa; xdc].

(** ** Errors *)

(** Go error values: [errors.New msg], an error wrapped with a message,
    and the errors of the collaborators (keeper, pool), told apart by a
    code. *)
#[warnings="-register-all"]
Inductive Error : Type :=
  | errorString (msg : string)
  | wrapError (msg : string) (cause : option Error)
  | externalError (code : N).

Abbreviation error := (option Error) (only parsing).

Module errorslib.

(** Modelled from the spec: [lib/errors.Wrap] is not among the sources.
    Insert's stale-nonce branch returns
    [Wrap(pool.Remove(tx), "nonce too low")], and the spec has that
    branch always signal [RejectedNonceTooLow]; the failed signer
    lookup is wrapped the same way.  So [Wrap] always yields an error
    carrying the message, whatever the wrapped value. *)
Definition Wrap (err : error) (msg : string) : error :=
  Some (wrapError msg err).

End errorslib.

(** ** The stack of [lib/ds/stack] *)

Module stack.
Section Stack.
Context {T : Type}.

(** Modelled from the spec: [lib/ds/stack] is not among the sources.
    The spec has a stack with push, peek and truncate-to, ordered
    bottom-to-top; a snapshot id is the stack height, and reverting
    truncates the stack back to that height.  The list holds the bottom
    element first; a new stack is empty. *)
Definition New (capacity : Z) : list T := [].

(** Modelled from the spec: [Size], the stack height. *)
Definition Size (s : list T) : Z := Z.of_nat (length s).

(** Modelled from the spec: [Push] puts [x] on top and returns the new
    height (Snapshot returns the new stack height minus one). *)
Definition Push (x : T) (s : list T) : list T * Z :=
  (s ++ [x], Size s + 1).

(** Modelled from the spec: [Peek], the top element (the current frame). *)
Definition Peek (s : list T) : option T := last s.

(** Modelled from the spec: [PeekAt i], the i-th element from the bottom
    (Commit visits the frames bottom-to-top with [i] counting up). *)
Definition PeekAt (i : Z) (s : list T) : option T :=
  if 0 <=? i then s !! Z.to_nat i else None.

(** Modelled from the spec: [PopToSize] truncates the stack back to the
    given height.  A height that is negative or above the current one is
    not described; it is the failure [None]. *)
Definition PopToSize (newSize : Z) (s : list T) : option (list T) :=
  if (0 <=? newSize) && (newSize <=? Size s)
  then Some (take (Z.to_nat newSize) s)
  else None.

End Stack.
End stack.

(** ** Results of fallible calls *)

(** A Go call that returns an [error] and may panic on the way. *)
Inductive Result (A : Type) : Type :=
  | Done (a : A)
  | Failed (e : Error)
  | Panicked (msg : string).
Arguments Done {A} a.
Arguments Failed {A} e.
Arguments Panicked {A} msg.

(** Code running against the keeper's store [L]. *)
Definition Ledger (L A : Type) : Type := L -> Result A * L.

#[global] Instance ledger_ret {L} : MRet (Ledger L) :=
  fun A (a : A) l => (Done a, l).

#[global] Instance ledger_bind {L} : MBind (Ledger L) :=
  fun A B (k : A -> Ledger L B) (c : Ledger L A) l =>
    match c l with
    | (Done a, l') => k a l'
    | (Failed e, l') => (Failed e, l')
    | (Panicked msg, l') => (Panicked msg, l')
    end.

Definition panic {L A} (msg : string) : Ledger L A := fun l => (Panicked msg, l).

(** [if err := call; err != nil { return err }] *)
Definition try {L} (call : L -> L * error) : Ledger L unit :=
  fun l =>
    match call l with
    | (l', None) => (Done tt, l')
    | (l', Some e) => (Failed e, l')
    end.

(** [for _, x := range xs { body }] *)
Fixpoint forEach {L A} (xs : list A) (body : A -> Ledger L unit) : Ledger L unit :=
  match xs with
  | [] => mret tt
  | x :: xs => body x ;; forEach xs body
  end.

(** ** Package [bank]: the balance overlay *)

Module bank.

Definition initCapacity : Z := 16.
Definition registryKey : string := "bank".
Definition underlyingDenom : string := "umito".

(** Modelled from the spec: [evmtypes.ModuleName] is declared outside the
    sources; it names the module-owned account that mints and burns. *)
Definition ModuleName : string := "evm".

(** *** The SDK's coins *)

Record Coin := { Denom : string; Amount : Z }.
Abbreviation Coins := (list Coin) (only parsing).

(** [big.Int.BitLen]: the length of the absolute value in bits. *)
Definition BitLen (i : Z) : Z :=
  if i =? 0 then 0 else Z.log2 (Z.abs i) + 1.

(** [sdkmath.NewIntFromBigInt] panics above 256 bits. *)
Definition NewIntFromBigInt (i : Z) : option Z :=
  if 256 <? BitLen i then None else Some i.

(** [sdk.NewCoin] panics on a negative amount (and on a malformed
    denomination, which [underlyingDenom] is not). *)
Definition NewCoin (denom : string) (amount : Z) : option Coin :=
  if amount <? 0 then None else Some {| Denom := denom; Amount := amount |}.

(** [sdk.NewCoins] of one coin drops it when its amount is zero. *)
Definition NewCoins (c : Coin) : Coins :=
  if Amount c =? 0 then [] else [c].

(** *** The expected bank keeper *)

Module BankKeeper.
(** The interface [BankKeeper], over a store of type [L].  A call that
    returns an error also returns the store it left behind. *)
Class t (L : Type) := {
  GetBalance : L -> AccAddress -> string -> Coin;
  SendCoinsFromModuleToAccount :
    string -> AccAddress -> Coins -> L -> L * error;
  SendCoinsFromAccountToModule :
    AccAddress -> string -> Coins -> L -> L * error;
  MintCoins : string -> Coins -> L -> L * error;
  BurnCoins : string -> Coins -> L -> L * error
}.
End BankKeeper.

(** *** The manager *)

Record balanceChange := { Addr : Address; Delta : Z }.

Record state := {
  balanceChanges : list balanceChange;
  dirtyBalances : gmap (list byte) Z
}.

Record Manager := {
  states : list state;
  readOnly : bool
}.

Definition NewManager : Manager :=
  {| states := stack.New initCapacity; readOnly := false |}.

Definition emptyState : state :=
  {| balanceChanges := []; dirtyBalances := ∅ |}.

Definition withStates (m : Manager) (st : list state) : Manager :=
  {| states := st; readOnly := readOnly m |}.

(** The stack holds [*state]: a write through the pointer that
    [getCurState] returned lands in the top slot. *)
Definition storeCur (s : state) (m : Manager) : Manager :=
  withStates m (<[pred (length (states m)) := s]> (states m)).

Definition getCurState (m : Manager) : state * Manager :=
  let m :=
    if stack.Size (states m) =? 0
    then withStates m (stack.Push emptyState (states m)).1
    else m in
  (default emptyState (stack.Peek (states m)), m).
Arguments getCurState : simpl never.

Section WithKeeper.
Context {L : Type} `{K : BankKeeper.t L}.

Definition GetBalance (l : L) (m : Manager) (addr : Address) : Z * Manager :=
  let '(curState, m) := getCurState m in
  match dirtyBalances curState !! addr with
  | Some balance => (balance, m)
  | None =>
      (Amount (BankKeeper.GetBalance l (Bytes addr) underlyingDenom), m)
  end.

Definition SetBalance (l : L) (m : Manager) (addr : Address)
    (newBalance : Z) : Manager :=
  let '(oldBalance, m) := GetBalance l m addr in
  let delta := newBalance - oldBalance in
  if Z.sgn delta =? 0 then m
  else
    let '(curState, m) := getCurState m in
    let curState :=
      {| balanceChanges :=
           balanceChanges curState ++ [{| Addr := addr; Delta := delta |}];
         dirtyBalances := dirtyBalances curState |} in
    let curState :=
      {| balanceChanges := balanceChanges curState;
         dirtyBalances := <[addr := newBalance]> (dirtyBalances curState) |} in
    storeCur curState m.

End WithKeeper.

Definition RegistryKey (m : Manager) : string := registryKey.

Definition Snapshot (m : Manager) : Z * Manager :=
  let '(curState, m) := getCurState m in
  let newState :=
    {| balanceChanges := [];
       dirtyBalances :=
         foldr (fun '(addr, balance) d => <[addr := balance]> d) ∅
               (map_to_list (dirtyBalances curState)) |} in
  let '(st, size) := stack.Push newState (states m) in
  (size - 1, withStates m st).

(** [PopToSize] fails on a size out of range, and so does this. *)
Definition RevertToSnapshot (id : Z) (m : Manager) : option Manager :=
  st ← stack.PopToSize id (states m); Some (withStates m st).

Definition Finalize (m : Manager) : Manager := m.

Section Commit.
Context {L : Type} `{K : BankKeeper.t L}.

(** The body of the inner loop of [Commit] for one journal entry. *)
Definition commitChange (change : balanceChange) : Ledger L unit :=
  match Z.sgn (Delta change) with
  | 1 =>
      match NewIntFromBigInt (Delta change) ≫= NewCoin underlyingDenom with
      | None => panic "NewIntFromBigInt() out of bound"
      | Some coin =>
          let amount := NewCoins coin in
          try (BankKeeper.MintCoins ModuleName amount) ;;
          try (BankKeeper.SendCoinsFromModuleToAccount
                 ModuleName (Bytes (Addr change)) amount)
      end
  | -1 =>
      match NewIntFromBigInt (- Delta change) ≫= NewCoin underlyingDenom with
      | None => panic "NewIntFromBigInt() out of bound"
      | Some coin =>
          let amount := NewCoins coin in
          try (BankKeeper.SendCoinsFromAccountToModule
                 (Bytes (Addr change)) ModuleName amount) ;;
          try (BankKeeper.BurnCoins ModuleName amount)
      end
  | _ => mret tt
  end.

(** [Commit].  The two loops over [totalDirtyBalances] only query
    balances for the logger and leave the store alone; the outer loop
    runs [i] from [0] below [m.states.Size()]. *)
Definition Commit (m : Manager) (l : L) : Result unit * L * Manager :=
  let '(curState, m) := getCurState m in
  let totalDirtyBalances := dirtyBalances curState in
  let body (i : nat) : Ledger L unit :=
    match stack.PeekAt (Z.of_nat i) (states m) with
    | None => panic "index out of bounds"
    | Some s => forEach (balanceChanges s) commitChange
    end in
  let '(r, l) :=
    forEach (seq 0 (Z.to_nat (stack.Size (states m)))) body l in
  (r, l, m).

End Commit.

(** *** Observing the keeper calls *)

(** The four mutating calls of the keeper interface, as data. *)
Inductive BankCall : Type :=
  | CallMintCoins (moduleName : string) (amt : list Coin)
  | CallBurnCoins (moduleName : string) (amt : list Coin)
  | CallSendCoinsFromModuleToAccount
      (senderModule : string) (recipientAddr : list byte) (amt : list Coin)
  | CallSendCoinsFromAccountToModule
      (senderAddr : list byte) (recipientModule : string) (amt : list Coin).

Definition perform {L : Type} `{K : BankKeeper.t L} (c : BankCall)
    : L -> L * error :=
  match c with
  | CallMintCoins md amt => BankKeeper.MintCoins md amt
  | CallBurnCoins md amt => BankKeeper.BurnCoins md amt
  | CallSendCoinsFromModuleToAccount md to amt =>
      BankKeeper.SendCoinsFromModuleToAccount md to amt
  | CallSendCoinsFromAccountToModule from md amt =>
      BankKeeper.SendCoinsFromAccountToModule from md amt
  end.

(** The store reached by performing [cs] one after the other. *)
Definition performAll {L : Type} `{K : BankKeeper.t L}
    (cs : list BankCall) (l : L) : L :=
  foldl (fun l c => (perform c l).1) l cs.

Definition logged {L : Type} `{K : BankKeeper.t L} (c : BankCall)
    : L * list BankCall -> (L * list BankCall) * error :=
  fun '(l, log) => let '(l', e) := perform c l in ((l', log ++ [c]), e).

(** A keeper that forwards every call to [K] and appends it to a log. *)
Definition recording {L : Type} (K : BankKeeper.t L)
    : BankKeeper.t (L * list BankCall) :=
  {| BankKeeper.GetBalance := fun '(l, _) => BankKeeper.GetBalance l;
     BankKeeper.SendCoinsFromModuleToAccount md to amt :=
       logged (CallSendCoinsFromModuleToAccount md to amt);
     BankKeeper.SendCoinsFromAccountToModule from md amt :=
       logged (CallSendCoinsFromAccountToModule from md amt);
     BankKeeper.MintCoins md amt := logged (CallMintCoins md amt);
     BankKeeper.BurnCoins md amt := logged (CallBurnCoins md amt) |}.

(** *** What the spec says [Commit] replays *)

Definition coinsOf (amount : Z) : list Coin :=
  [{| Denom := underlyingDenom; Amount := amount |}].

(** A positive delta is minted into the module account and then sent to
    the account; a negative delta is sent from the account to the module
    account and then burnt. *)
Definition replayOf (d : balanceChange) : list BankCall :=
  if 0 <? Delta d then
    [CallMintCoins ModuleName (coinsOf (Delta d));
     CallSendCoinsFromModuleToAccount ModuleName (Addr d) (coinsOf (Delta d))]
  else if Delta d <? 0 then
    [CallSendCoinsFromAccountToModule (Addr d) ModuleName (coinsOf (- Delta d));
     CallBurnCoins ModuleName (coinsOf (- Delta d))]
  else [].

(** All recorded deltas: frames bottom-to-top, append order within. *)
Definition journal (st : list state) : list balanceChange :=
  concat (map balanceChanges st).

Definition replay (st : list state) : list BankCall :=
  concat (map replayOf (journal st)).

(** The sum of the deltas recorded for [a]. *)
Definition deltaSum (a : Address) (cs : list balanceChange) : Z :=
  foldr (fun c acc => if decide (Addr c = a) then Delta c + acc else acc) 0 cs.

(** *** The run of [Commit], call by call *)

(** A delta that [sdkmath.NewIntFromBigInt] accepts. *)
Definition fits (d : balanceChange) : bool := BitLen (Delta d) <=? 256.

(** The calls for the deltas that precede the first one too wide for the
    SDK, and whether there is such a delta. *)
Fixpoint planned (cs : list balanceChange) : list BankCall * bool :=
  match cs with
  | [] => ([], false)
  | c :: cs =>
      if fits c
      then let '(calls, stop) := planned cs in (replayOf c ++ calls, stop)
      else ([], true)
  end.

(** Performing [cs] in order, up to and including the first call that
    returns an error: the calls made, the store left, the error. *)
Fixpoint performUntilError {L : Type} `{K : BankKeeper.t L}
    (cs : list BankCall) (l : L) : list BankCall * L * error :=
  match cs with
  | [] => ([], l, None)
  | c :: cs =>
      match perform c l with
      | (l', Some e) => ([c], l', Some e)
      | (l', None) =>
          let '(tr, l'', e) := performUntilError cs l' in (c :: tr, l'', e)
      end
  end.

Definition outcome (e : error) (stop : bool) : Result unit :=
  match e with
  | Some e => Failed e
  | None => if stop then Panicked "NewIntFromBigInt() out of bound" else Done tt
  end.

(** *** The overlay as a state machine over a fixed ledger *)

Inductive Op : Type :=
  | OpGetBalance (addr : list byte)
  | OpSetBalance (addr : list byte) (newBalance : Z)
  | OpSnapshot
  | OpRevertToSnapshot (id : Z).

Section Machine.
Context {L : Type} `{K : BankKeeper.t L}.

Definition ledgerBalance (l : L) (a : Address) : Z :=
  Amount (BankKeeper.GetBalance l (Bytes a) underlyingDenom).

(** One overlay call; [None] when the call panics. *)
Definition step (l : L) (op : Op) (m : Manager) : option Manager :=
  match op with
  | OpGetBalance a => Some (GetBalance l m a).2
  | OpSetBalance a v => Some (SetBalance l m a v)
  | OpSnapshot => Some (Snapshot m).2
  | OpRevertToSnapshot id => RevertToSnapshot id m
  end.

Fixpoint run (l : L) (ops : list Op) (m : Manager) : option Manager :=
  match ops with
  | [] => Some m
  | op :: ops => step l op m ≫= run l ops
  end.

(** The managers that overlay calls build from [NewManager]. *)
Inductive reachable (l : L) : Manager -> Prop :=
  | reachable_new : reachable l NewManager
  | reachable_step m op m' :
      reachable l m -> step l op m = Some m' -> reachable l m'.

(** The invariant of the data model: in every frame, a dirty balance
    is the ledger balance plus the deltas recorded for the account in
    the frames up to and including that frame. *)
Definition dirty_invariant (l : L) (m : Manager) : Prop :=
  forall (i : nat) (f : state) (a : list byte) (v : Z),
    states m !! i = Some f ->
    dirtyBalances f !! a = Some v ->
    v = ledgerBalance l a + deltaSum a (journal (take (S i) (states m))).

(** What [GetBalance] answers when [f] is the current frame. *)
Definition view (l : L) (f : state) (a : list byte) : Z :=
  default (ledgerBalance l a) (dirtyBalances f !! a).

(** The stack after the lazy creation of the first frame. *)
Definition opened (st : list state) : list state :=
  match st with [] => [emptyState] | _ => st end.

(** In every frame, what [GetBalance] would answer from that frame is the
    ledger balance plus the deltas recorded up to that frame: for an
    account in the dirty map this is the invariant of the data model,
    and an account outside it has deltas that cancel out. *)
Definition frames_ok (l : L) (st : list state) : Prop :=
  forall (i : nat) (f : state), st !! i = Some f ->
    forall a, view l f a =
              ledgerBalance l a + deltaSum a (journal (take (S i) st)).

(** The calls that push or write, but never pop. *)
Definition not_revert (op : Op) : bool :=
  match op with OpRevertToSnapshot _ => false | _ => true end.

End Machine.

(** A property [holds f j] of every frame [f] together with the deltas [j]
    recorded in the frames up to and including it. *)
Definition frames_all (holds : state -> list balanceChange -> Prop)
    (st : list state) : Prop :=
  forall (i : nat) (f : state), st !! i = Some f ->
    holds f (journal (take (S i) st)).

(** The dirty map has an entry for exactly the accounts with a delta. *)
Definition dirty_tracks (f : state) (j : list balanceChange) : Prop :=
  forall a, is_Some (dirtyBalances f !! a) <-> a ∈ map Addr j.

(** *** Keepers that move balances *)

(** What the replay relies on: a successful mint, burn or transfer of
    one coin moves exactly that amount, between the accounts named. *)
Class Balanced {L : Type} (K : BankKeeper.t L)
    (moduleAddress : string -> list byte) : Prop := {
  mint_moves : forall md d x l l' a,
    BankKeeper.MintCoins md [{| Denom := d; Amount := x |}] l = (l', None) ->
    Amount (BankKeeper.GetBalance l' a d) =
    Amount (BankKeeper.GetBalance l a d)
    + (if decide (a = moduleAddress md) then x else 0);
  burn_moves : forall md d x l l' a,
    BankKeeper.BurnCoins md [{| Denom := d; Amount := x |}] l = (l', None) ->
    Amount (BankKeeper.GetBalance l' a d) =
    Amount (BankKeeper.GetBalance l a d)
    - (if decide (a = moduleAddress md) then x else 0);
  send_out_moves : forall md to d x l l' a,
    BankKeeper.SendCoinsFromModuleToAccount md to
      [{| Denom := d; Amount := x |}] l = (l', None) ->
    Amount (BankKeeper.GetBalance l' a d) =
    Amount (BankKeeper.GetBalance l a d)
    - (if decide (a = moduleAddress md) then x else 0)
    + (if decide (a = to) then x else 0);
  send_in_moves : forall from md d x l l' a,
    BankKeeper.SendCoinsFromAccountToModule from md
      [{| Denom := d; Amount := x |}] l = (l', None) ->
    Amount (BankKeeper.GetBalance l' a d) =
    Amount (BankKeeper.GetBalance l a d)
    - (if decide (a = from) then x else 0)
    + (if decide (a = moduleAddress md) then x else 0)
}.

(** A reference keeper: balances per (account, denomination), absent
    meaning zero; a debit fails on insufficient funds. *)
Module simple.

Definition moduleAddress (name : string) : list byte :=
  String.list_byte_of_string name.

Definition balanceOf (l : gmap (list byte * string) Z)
    (a : list byte) (d : string) : Z :=
  default 0 (l !! (a, d)).

Definition credit (a : list byte) (amt : list Coin)
    (l : gmap (list byte * string) Z) : gmap (list byte * string) Z :=
  foldl (fun l c => <[(a, Denom c) := balanceOf l a (Denom c) + Amount c]> l)
        l amt.

Fixpoint debit (a : list byte) (amt : list Coin)
    (l : gmap (list byte * string) Z)
    : option (gmap (list byte * string) Z) :=
  match amt with
  | [] => Some l
  | c :: amt =>
      if balanceOf l a (Denom c) <? Amount c then None
      else debit a amt (<[(a, Denom c) := balanceOf l a (Denom c) - Amount c]> l)
  end.

Definition insufficientFunds : Error := errorString "insufficient funds".

Definition send (from to : list byte) (amt : list Coin)
    (l : gmap (list byte * string) Z)
    : gmap (list byte * string) Z * error :=
  match debit from amt l with
  | Some l' => (credit to amt l', None)
  | None => (l, Some insufficientFunds)
  end.

#[global] Instance keeper : BankKeeper.t (gmap (list byte * string) Z) :=
  {| BankKeeper.GetBalance l a d := {| Denom := d; Amount := balanceOf l a d |};
     BankKeeper.SendCoinsFromModuleToAccount md to amt :=
       send (moduleAddress md) to amt;
     BankKeeper.SendCoinsFromAccountToModule from md amt :=
       send from (moduleAddress md) amt;
     BankKeeper.MintCoins md amt l := (credit (moduleAddress md) amt l, None);
     BankKeeper.BurnCoins md amt l :=
       match debit (moduleAddress md) amt l with
       | Some l' => (l', None)
       | None => (l, Some insufficientFunds)
       end |}.

End simple.

End bank.

(** ** Package [mempool]: the admission pool *)

Module mempool.

(** [coretypes.Transaction], by what the pool reads of it: [Nonce()],
    [Hash()] and the sender that [coretypes.GetSender] recovers from the
    signature; [payload] stands for the rest of the transaction. *)
Record Transaction := {
  Nonce : N;
  Hash : N;
  sender : list byte;
  payload : list byte
}.

Definition GetSender (ethTx : Transaction) : Address := sender ethTx.

(** [sdk.Tx], by what the pool asks of it: whether it is an
    [authsigning.SigVerifiableTx], what [GetSigners] returns, and what
    [evmtypes.GetAsEthTx] decodes ([None] for [nil]). *)
Record Tx := {
  sigVerifiable : bool;
  GetSigners : list (list byte) * error;
  GetAsEthTx : option Transaction
}.

Module PriorityNonceMempool.
(** The embedded priority pool, over a store of type [P]. *)
Class t (P : Type) := {
  Insert : Tx -> P -> P * error;
  Remove : Tx -> P -> P * error
}.
End PriorityNonceMempool.

(** [EthTxPool]: the embedded pool, the Tx Cache, the Nonce Index and the
    nonce retriever ([nr.GetNonce]).  The mutex serialises [Insert] and
    [Remove]; each is one atomic step here. *)
Record EthTxPool (P : Type) := {
  pool : P;
  ethTxCache : gmap N Transaction;
  nonceToHash : gmap (list byte) (gmap N N);
  nr : list byte -> N
}.
Arguments pool {P} _.
Arguments ethTxCache {P} _.
Arguments nonceToHash {P} _.
Arguments nr {P} _.

Definition withPool {P} (etp : EthTxPool P) (p : P) : EthTxPool P :=
  {| pool := p; ethTxCache := ethTxCache etp;
     nonceToHash := nonceToHash etp; nr := nr etp |}.

(** The loop of [checkTxSigner] over the signers. *)
Fixpoint checkSigners (signers : list (list byte)) : error :=
  match signers with
  | [] => None
  | signer :: signers =>
      let isReservedAccount :=
        bool_decide (BytesToAddress signer = ReservedAddress) in
      if isReservedAccount
      then Some (errorString "reserved account not allowed to send tx via mempool")
      else checkSigners signers
  end.

Definition checkTxSigner (tx : Tx) : error :=
  if negb (sigVerifiable tx)
  then Some (errorString "invalid transaction type")
  else
    let '(signers, err) := GetSigners tx in
    match err with
    | Some e => errorslib.Wrap (Some e) "failed to get signers"
    | None => checkSigners signers
    end.

Section WithPool.
Context {P : Type} `{U : PriorityNonceMempool.t P}.

Definition Insert (etp : EthTxPool P) (tx : Tx) : EthTxPool P * error :=
  match checkTxSigner tx with
  | Some err => (etp, Some err)
  | None =>
      let '(p, err) := PriorityNonceMempool.Insert tx (pool etp) in
      let etp := withPool etp p in
      match err with
      | Some err => (etp, Some err)
      | None =>
          match GetAsEthTx tx with
          | None => (etp, None)
          | Some ethTx =>
              let sender := GetSender ethTx in
              let nonce := Nonce ethTx in
              let sdbNonce := nr etp sender in
              if (nonce <? sdbNonce)%N then
                let '(p, err) := PriorityNonceMempool.Remove tx (pool etp) in
                (withPool etp p, errorslib.Wrap err "nonce too low")
              else
                (* delete(etp.ethTxCache, senderNonceHash[nonce]): a
                   missing nonce reads as the zero hash *)
                let cache :=
                  match nonceToHash etp !! sender with
                  | Some senderNonceHash =>
                      delete (default 0%N (senderNonceHash !! nonce))
                             (ethTxCache etp)
                  | None => ethTxCache etp
                  end in
                let newHash := Hash ethTx in
                let index :=
                  match nonceToHash etp !! sender with
                  | None => <[sender := ∅]> (nonceToHash etp)
                  | Some _ => nonceToHash etp
                  end in
                let index :=
                  <[sender := <[nonce := newHash]> (default ∅ (index !! sender))]>
                    index in
                ({| pool := pool etp;
                    ethTxCache := <[newHash := ethTx]> cache;
                    nonceToHash := index;
                    nr := nr etp |}, None)
          end
      end
  end.

Definition Remove (etp : EthTxPool P) (tx : Tx) : EthTxPool P * error :=
  let '(p, err) := PriorityNonceMempool.Remove tx (pool etp) in
  let etp := withPool etp p in
  match err with
  | Some err => (etp, Some err)
  | None =>
      match GetAsEthTx tx with
      | None => (etp, None)
      | Some ethTx =>
          (* delete on the inner map; a nil inner map is left alone *)
          ({| pool := pool etp;
              ethTxCache := delete (Hash ethTx) (ethTxCache etp);
              nonceToHash :=
                alter (delete (Nonce ethTx)) (GetSender ethTx)
                      (nonceToHash etp);
              nr := nr etp |}, None)
      end
  end.

End WithPool.

(** Lookups the claims speak of. *)
Definition cached {P} (etp : EthTxPool P) (h : N) : option Transaction :=
  ethTxCache etp !! h.

Definition indexed {P} (etp : EthTxPool P) (a : list byte) (n : N) : option N :=
  nonceToHash etp !! a ≫= fun byNonce => byNonce !! n.

(** The hash whose Tx Cache entry [Insert] of [ethTx] deletes before it
    stores the new one: what [senderNonceHash[nonce]] reads when the sender
    has an inner map, the zero hash for a nonce that map lacks. *)
Definition evicted {P} (etp : EthTxPool P) (ethTx : Transaction) : option N :=
  (fun senderNonceHash => default 0%N (senderNonceHash !! Nonce ethTx))
    <$> nonceToHash etp !! GetSender ethTx.

(** A scripted pool for examples: it logs its calls, and fails [Insert]
    or [Remove] as its flags say. *)
Inductive PoolCall : Type :=
  | PoolInsert (tx : Tx)
  | PoolRemove (tx : Tx).

Definition scripted (failInsert failRemove : bool)
    : PriorityNonceMempool.t (list PoolCall) :=
  {| PriorityNonceMempool.Insert tx p :=
       (p ++ [PoolInsert tx],
        if failInsert then Some (externalError 1) else None);
     PriorityNonceMempool.Remove tx p :=
       (p ++ [PoolRemove tx],
        if failRemove then Some (externalError 2) else None) |}.

End mempool.

(** ** Package [lib] of [cosmos]: grants as send authorizations *)

Module cosmlib.

(** [banktypes.SendAuthorization], a value behind a non-nil pointer. *)
Record SendAuthorization := {
  SpendLimit : list bank.Coin;
  AllowList : list string
}.

(** A [time.Time] is an instant, in nanoseconds since the epoch;
    [t.After(u)] reports whether [t] is after [u]. *)
Definition After (t u : Z) : bool := u <? t.

Section Grants.
(** Declared outside the sources and taken as given: the type [Any] of
    what [grant.Authorization.GetCachedValue()] returns, the type
    assertion [utils.GetAs[*banktypes.SendAuthorization]] on it, and the
    error value [precompile.ErrInvalidGrantType]. *)
Context {Any : Type}.
Context (asSendAuth : Any -> option SendAuthorization).
Context (ErrInvalidGrantType : Error).

(** [authz.Grant]: [Expiration] is a [*time.Time], [None] for [nil]. *)
Record Grant := {
  Authorization : Any;
  Expiration : option Z
}.

(** The loop of [GetGrantAsSendAuth], with the slice built so far. *)
Fixpoint collectSendAuths (grants : list Grant) (blocktime : Z)
    (sendAuths : list SendAuthorization)
    : list SendAuthorization * error :=
  match grants with
  | [] => (sendAuths, None)
  | grant :: grants =>
      if match Expiration grant with
         | None => true
         | Some expiration => After expiration blocktime
         end
      then
        match asSendAuth (Authorization grant) with
        | None => ([], Some ErrInvalidGrantType)
        | Some sendAuth =>
            collectSendAuths grants blocktime (sendAuths ++ [sendAuth])
        end
      else collectSendAuths grants blocktime sendAuths
  end.

Definition GetGrantAsSendAuth (grants : list Grant) (blocktime : Z)
    : list SendAuthorization * error :=
  collectSendAuths grants blocktime [].

(** A grant that still counts at [blocktime]: it has no expiration, or
    its expiration is strictly later. *)
Definition unexpired (blocktime : Z) (grant : Grant) : bool :=
  match Expiration grant with
  | None => true
  | Some expiration => blocktime <? expiration
  end.

(** A grant whose cached value is a send authorization. *)
Definition castable (grant : Grant) : bool :=
  match asSendAuth (Authorization grant) with Some _ => true | None => false end.

End Grants.

End cosmlib.

(** ** The bank precompile: the highest allowance *)

Module precompile_bank.
Import cosmlib.

Section Allowance.
(** [sdk.Coins.AmountOf], taken as given: the amount of a denomination in
    a set of coins, [None] when it panics (on a malformed denomination). *)
Context (AmountOf : list bank.Coin -> string -> option Z).

(** The loop of [getHighestAllowance], with the maximum so far; [max] is
    never [nil], so the first half of the test never decides. *)
Fixpoint highestFrom (max : Z) (sendAuths : list SendAuthorization)
    (coinDenom : string) : option Z :=
  match sendAuths with
  | [] => Some max
  | sendAuth :: sendAuths =>
      amount ← AmountOf (SpendLimit sendAuth) coinDenom;
      highestFrom (if max <? amount then amount else max) sendAuths coinDenom
  end.

Definition getHighestAllowance (sendAuths : list SendAuthorization)
    (coinDenom : string) : option Z :=
  highestFrom 0 sendAuths coinDenom.

End Allowance.

End precompile_bank.

(** ** Worked examples *)

Module examples.
Import bank mempool.

Definition alice : list byte := replicate 19 x00 ++ [x0a].
Definition bob : list byte := replicate 19 x00 ++ [x0b].

(** The example of the spec: [alice] holds 100 on the ledger. *)
Definition ledger0 : gmap (list byte * string) Z :=
  {[ (alice, underlyingDenom) := 100 ]}.

(** SetBalance(alice, 150); Snapshot(); SetBalance(alice, 0). *)
Definition raised : Manager := SetBalance ledger0 NewManager alice 150.
Definition twoFrames : Manager := SetBalance ledger0 (Snapshot raised).2 alice 0.

(** ... and then RevertToSnapshot of the id that Snapshot returned. *)
Definition script : list Op :=
  [OpSetBalance alice 150; OpSnapshot; OpSetBalance alice 0;
   OpRevertToSnapshot 1].
Definition settled : Manager :=
  default NewManager (run ledger0 script NewManager).

(** An overlay that spends all of [alice]'s balance, and the ledger after
    its first Commit. *)
Definition spent : Manager := SetBalance ledger0 NewManager alice 0.
Definition ledger1 : gmap (list byte * string) Z := (Commit spent ledger0).1.2.

(** A pool over the scripted priority pool; the nonce source answers 5. *)
Definition emptyPool : EthTxPool (list PoolCall) :=
  {| pool := []; ethTxCache := ∅; nonceToHash := ∅; nr := fun _ => 5%N |}.

Definition ethTx5 : Transaction :=
  {| Nonce := 5; Hash := 17; sender := alice; payload := [x01] |}.
Definition ethTx5' : Transaction :=
  {| Nonce := 5; Hash := 18; sender := alice; payload := [x02] |}.
Definition ethTx4 : Transaction :=
  {| Nonce := 4; Hash := 16; sender := alice; payload := [] |}.

Definition signedBy (signer : list byte) (ethTx : Transaction) : Tx :=
  {| sigVerifiable := true;
     GetSigners := ([signer], None);
     GetAsEthTx := Some ethTx |}.

(** The runs of [Commit] that the examples look at, through the recording
    keeper: the settled overlay on the first ledger, and the spending
    overlay once and then once more. *)
Definition settledRun := Commit (K := recording simple.keeper) settled (ledger0, []).
Definition spentRun := Commit (K := recording simple.keeper) spent (ledger0, []).
Definition spentAgain := Commit (K := recording simple.keeper) spent (ledger1, []).

Definition debitAlice : BankCall :=
  CallSendCoinsFromAccountToModule alice ModuleName (coinsOf 100).

(** A pool that holds [ethTx5]: it was inserted and accepted. *)
Definition holding5 : EthTxPool (list PoolCall) :=
  (Insert (U := scripted false false) emptyPool (signedBy alice ethTx5)).1.

(** An overlay that moves 40 of [alice]'s 100 out, committed once and
    then once more; and the settled overlay committed on the plain
    keeper. *)
Definition saving : Manager := SetBalance ledger0 NewManager alice 60.
Definition savingRun := Commit (K := simple.keeper) saving ledger0.
Definition savingAgain := Commit (K := simple.keeper) savingRun.2 savingRun.1.2.
Definition settledPlain := Commit (K := simple.keeper) settled ledger0.

(** A transaction of another module, and two more engine transactions:
    one by [bob] whose hash is the zero hash, one by [alice] with a nonce
    that is not indexed yet. *)
Definition otherTx : Tx :=
  {| sigVerifiable := true; GetSigners := ([alice], None); GetAsEthTx := None |}.
Definition ethTx0 : Transaction :=
  {| Nonce := 9; Hash := 0; sender := bob; payload := [] |}.
Definition ethTx7 : Transaction :=
  {| Nonce := 7; Hash := 19; sender := alice; payload := [] |}.
Definition withZero : EthTxPool (list PoolCall) :=
  (Insert (U := scripted false false) holding5 (signedBy bob ethTx0)).1.

(** Grants for the allowance: the cached values are send authorizations
    or something else; amounts are looked up by denomination. *)
Definition amountOf (coins : list Coin) (denom : string) : option Z :=
  Some (default 0 (Amount <$> List.find (fun c => bool_decide (Denom c = denom)) coins)).

Definition limit (amount : Z) : cosmlib.SendAuthorization :=
  {| cosmlib.SpendLimit := coinsOf amount; cosmlib.AllowList := [] |}.

Definition grants : list (cosmlib.Grant (Any := option cosmlib.SendAuthorization)) :=
  [ {| cosmlib.Authorization := Some (limit 30); cosmlib.Expiration := None |};
    {| cosmlib.Authorization := Some (limit 90); cosmlib.Expiration := Some 10 |};
    {| cosmlib.Authorization := None; cosmlib.Expiration := Some 5 |};
    {| cosmlib.Authorization := Some (limit 50); cosmlib.Expiration := Some 11 |} ].

(** *** Readings that the code does not bear out *)

(** RevertToSnapshot(N) read as keeping the frames at indices [0] through
    [N], the frame at [N] included. *)
Definition keeps_frames_through (N : Z) (m : Manager) : Prop :=
  N < stack.Size (states m) ->
  exists m',
    RevertToSnapshot N m = Some m' /\
    forall i, 0 <= i <= N ->
      stack.PeekAt i (states m') = stack.PeekAt i (states m).

(** A successful Commit read as leaving the snapshot stack untouched on
    every overlay. *)
Definition commit_leaves_stack {L : Type} `{K : BankKeeper.t L}
    (m : Manager) (l : L) : Prop :=
  (Commit m l).1.1 = Done tt -> states (Commit m l).2 = states m.

(** An admitting Insert read as always leaving the old hash of the
    (sender, nonce) pair unresolvable. *)
Definition evicts_old_hash {P : Type} `{U : PriorityNonceMempool.t P}
    (etp : EthTxPool P) (tx : Tx) : Prop :=
  forall ethTx old,
    GetAsEthTx tx = Some ethTx ->
    indexed etp (GetSender ethTx) (Nonce ethTx) = Some old ->
    (Insert etp tx).2 = None ->
    cached (Insert etp tx).1 old = None /\
    indexed (Insert etp tx).1 (GetSender ethTx) (Nonce ethTx) = Some (Hash ethTx) /\
    cached (Insert etp tx).1 (Hash ethTx) = Some ethTx.

End examples.

(** * Properties of the balance overlay *)

Section Overlay.
Import bank.
Context {L : Type} `{K : BankKeeper.t L}.



Lemma Size_0 {T} (s : list T) : (stack.Size s =? 0) = true <-> s = [].
Proof.
  unfold stack.Size. rewrite Z.eqb_eq. destruct s; simpl; split; intros; try done; lia.
Qed.

Lemma getCurState_snoc m st top :
  states m = st ++ [top] -> getCurState m = (top, m).
Proof.
  intros E. unfold getCurState.
  destruct (stack.Size (states m) =? 0) eqn:S0.
  - apply Size_0 in S0. rewrite S0 in E. by destruct st.
  - unfold stack.Peek. by rewrite E, last_snoc.
Qed.

Lemma getCurState_nil m :
  states m = [] -> getCurState m = (emptyState, withStates m [emptyState]).
Proof.
  intros E. unfold getCurState.
  destruct (stack.Size (states m) =? 0) eqn:S0.
  - by rewrite E.
  - rewrite E in S0. done.
Qed.

Lemma getCurState_states m : states (getCurState m).2 = opened (states m).
Proof.
  destruct (states m) as [|f st] eqn:E.
  - by rewrite (getCurState_nil m E).
  - destruct (exists_last (l := f :: st)) as (st' & top & E'); [done|].
    rewrite E' in E. rewrite (getCurState_snoc m _ _ E). simpl.
    rewrite E. by destruct st'.
Qed.

Lemma getCurState_top m :
  stack.Peek (states (getCurState m).2) = Some (getCurState m).1.
Proof.
  destruct (states m) as [|f st] eqn:E.
  - by rewrite (getCurState_nil m E).
  - destruct (exists_last (l := f :: st)) as (st' & top & E'); [done|].
    rewrite E' in E. rewrite (getCurState_snoc m _ _ E). simpl.
    unfold stack.Peek. by rewrite E, last_snoc.
Qed.

Lemma getCurState_readOnly m : readOnly (getCurState m).2 = readOnly m.
Proof.
  unfold getCurState. by destruct (stack.Size (states m) =? 0).
Qed.

Lemma opened_snoc (st : list state) :
  exists below top, opened st = below ++ [top].
Proof.
  destruct st as [|f st]; [by exists [], emptyState|].
  destruct (exists_last (l := f :: st)) as (st' & top & E'); [done|].
  exists st', top. by rewrite <- E'.
Qed.

Lemma GetBalance_view l m a :
  GetBalance l m a = (view l (getCurState m).1 a, (getCurState m).2).
Proof.
  unfold GetBalance, view, ledgerBalance.
  destruct (getCurState m) as [cur m']. simpl.
  by destruct (dirtyBalances cur !! a).
Qed.

Lemma copy_dirty (d : gmap (list byte) Z) :
  foldr (fun '(addr, balance) acc => <[addr := balance]> acc) ∅
        (map_to_list d) = d.
Proof.
  rewrite <- (list_to_map_to_list d) at 2.
  induction (map_to_list d) as [|[k v] kvs IH]; [done|].
  simpl. by rewrite IH.
Qed.

(** The stacks that the four operations produce. *)
Lemma SetBalance_states l m a v below top :
  opened (states m) = below ++ [top] ->
  states (SetBalance l m a v) =
    if v - view l top a =? 0 then below ++ [top]
    else below ++
         [{| balanceChanges :=
               balanceChanges top ++ [{| Addr := a; Delta := v - view l top a |}];
             dirtyBalances := <[a := v]> (dirtyBalances top) |}].
Proof.
  intros E. unfold SetBalance. rewrite GetBalance_view.
  pose proof (getCurState_states m) as Hs. rewrite E in Hs.
  pose proof (getCurState_snoc _ _ _ Hs) as Hc.
  assert (Ht : (getCurState m).1 = top).
  { pose proof (getCurState_top m) as Hp. unfold stack.Peek in Hp.
    rewrite Hs, last_snoc in Hp. congruence. }
  remember (getCurState m) as g eqn:G. destruct g as [cur m1]. clear G.
  cbn [fst snd] in *. subst cur. rewrite Hc.
  assert (Hz : (Z.sgn (v - view l top a) =? 0) = (v - view l top a =? 0)).
  { destruct (Z.eqb_spec (v - view l top a) 0) as [->|Hne]; [done|].
    apply Z.eqb_neq. lia. }
  rewrite Hz. destruct (v - view l top a =? 0); [done|].
  unfold storeCur. simpl. rewrite Hs.
  rewrite length_app. simpl.
  replace (pred (length below + 1)) with (length below + 0)%nat by lia.
  by rewrite insert_app_r.
Qed.

Lemma Snapshot_spec m below top :
  opened (states m) = below ++ [top] ->
  Snapshot m =
    (Z.of_nat (length (below ++ [top])),
     withStates (getCurState m).2
       (below ++ [top] ++
          [{| balanceChanges := []; dirtyBalances := dirtyBalances top |}])).
Proof.
  intros E. unfold Snapshot.
  pose proof (getCurState_states m) as Hs. rewrite E in Hs.
  assert (Ht : (getCurState m).1 = top).
  { pose proof (getCurState_top m) as Hp. unfold stack.Peek in Hp.
    rewrite Hs, last_snoc in Hp. congruence. }
  remember (getCurState m) as g eqn:G. destruct g as [cur m1]. clear G.
  simpl in *. subst cur.
  rewrite copy_dirty. unfold stack.Push, stack.Size. rewrite Hs.
  f_equal; [lia|]. by rewrite <- app_assoc.
Qed.

Lemma RevertToSnapshot_spec id m m' :
  RevertToSnapshot id m = Some m' <->
  0 <= id <= Z.of_nat (length (states m)) /\
  m' = withStates m (take (Z.to_nat id) (states m)).
Proof.
  unfold RevertToSnapshot, stack.PopToSize, stack.Size.
  destruct (Z.leb_spec 0 id), (Z.leb_spec id (Z.of_nat (length (states m))));
    simpl; split; intros H'; try (destruct H'; lia); try done.
  - split; [lia|]. congruence.
  - destruct H' as [_ ->]. done.
Qed.

(** *** The invariant, in the form that every operation preserves *)


Lemma journal_app st1 st2 : journal (st1 ++ st2) = journal st1 ++ journal st2.
Proof. unfold journal. by rewrite map_app, concat_app. Qed.

Lemma journal_single f : journal [f] = balanceChanges f.
Proof. unfold journal. simpl. by rewrite app_nil_r. Qed.

Lemma deltaSum_app a cs1 cs2 :
  deltaSum a (cs1 ++ cs2) = deltaSum a cs1 + deltaSum a cs2.
Proof.
  induction cs1 as [|c cs1 IH]; simpl; [lia|].
  fold (deltaSum a (cs1 ++ cs2)). fold (deltaSum a cs1).
  destruct (decide (Addr c = a)); lia.
Qed.

Lemma frames_ok_nil l : frames_ok l [].
Proof. intros i f Hi. by rewrite lookup_nil in Hi. Qed.

Lemma frames_ok_snoc l st f :
  frames_ok l (st ++ [f]) <->
  frames_ok l st /\
  forall a, view l f a = ledgerBalance l a + deltaSum a (journal (st ++ [f])).
Proof.
  split.
  - intros H. split.
    + intros i g Hi a.
      pose proof (lookup_lt_Some _ _ _ Hi) as Hlt.
      specialize (H i g). rewrite lookup_app_l in H by done.
      rewrite (H Hi a). by rewrite take_app_le by lia.
    + intros a. specialize (H (length st) f).
      rewrite list_lookup_middle in H by done.
      rewrite (H eq_refl a). rewrite take_ge; [done|].
      rewrite length_app. simpl. lia.
  - intros [Hst Hf] i g Hi a.
    destruct (decide (i < length st)%nat) as [Hlt|Hge].
    + rewrite lookup_app_l in Hi by done.
      rewrite take_app_le by lia. by apply Hst.
    + rewrite lookup_app_r in Hi by lia.
      destruct (i - length st)%nat eqn:Ei; [|by destruct n].
      simpl in Hi. injection Hi as <-.
      rewrite take_ge; [apply Hf|]. rewrite length_app. simpl. lia.
Qed.

Lemma frames_ok_take l st n : frames_ok l st -> frames_ok l (take n st).
Proof.
  intros H i f Hi a.
  apply lookup_take_Some in Hi as [Hi Hlt].
  rewrite take_take. replace (S i `min` n)%nat with (S i) by lia.
  by apply H.
Qed.

Lemma frames_ok_opened l st : frames_ok l st -> frames_ok l (opened st).
Proof.
  destruct st; [|done]. intros _.
  apply (frames_ok_snoc l [] emptyState). split; [apply frames_ok_nil|].
  intros a. unfold view. simpl. rewrite lookup_empty. simpl. lia.
Qed.

Lemma frames_ok_step l op m m' :
  frames_ok l (states m) -> step l op m = Some m' -> frames_ok l (states m').
Proof.
  intros Hok Hstep. apply frames_ok_opened in Hok.
  destruct (opened_snoc (states m)) as (below & top & E).
  destruct op as [a|a v| |id]; cbn [step] in Hstep.
  - assert (m' = (GetBalance l m a).2) as -> by congruence.
    rewrite GetBalance_view. cbn [snd].
    by rewrite getCurState_states.
  - assert (m' = SetBalance l m a v) as -> by congruence.
    rewrite (SetBalance_states l m a v below top E).
    rewrite E in Hok.
    destruct (Z.eqb_spec (v - view l top a) 0) as [Hz|Hnz]; [done|].
    apply frames_ok_snoc in Hok as [Hbelow Htop].
    apply frames_ok_snoc. split; [done|]. intros b.
    specialize (Htop b). rewrite journal_app, journal_single in *.
    cbn [balanceChanges]. rewrite app_assoc, deltaSum_app.
    unfold view in *. simpl.
    destruct (decide (a = b)) as [<-|Hne].
    + rewrite lookup_insert_eq. simpl.
      destruct (decide (a = a)); [|done]. lia.
    + rewrite lookup_insert_ne by done.
      destruct (decide (a = b)); [done|]. lia.
  - assert (m' = (Snapshot m).2) as -> by congruence.
    rewrite (Snapshot_spec m below top E). cbn [snd states withStates].
    rewrite E in Hok. rewrite (app_assoc below [top] [_]).
    apply frames_ok_snoc. split; [done|].
    apply frames_ok_snoc in Hok as [_ Htop]. intros b.
    rewrite journal_app, journal_single. simpl. rewrite app_nil_r.
    exact (Htop b).
  - apply RevertToSnapshot_spec in Hstep as [_ ->]. simpl.
    destruct (states m) as [|f st] eqn:Es.
    + rewrite take_nil. apply frames_ok_nil.
    + by apply frames_ok_take.
Qed.

Lemma reachable_frames_ok l m : reachable l m -> frames_ok l (states m).
Proof.
  induction 1 as [|m op m' _ IH Hstep]; [apply frames_ok_nil|].
  by apply (frames_ok_step l op m m').
Qed.

Lemma frames_ok_dirty_invariant l m :
  frames_ok l (states m) -> dirty_invariant l m.
Proof.
  intros H i f a v Hi Ha. specialize (H i f Hi a).
  unfold view in H. rewrite Ha in H. exact H.
Qed.

Lemma run_reachable l ops m m' :
  reachable l m -> run l ops m = Some m' -> reachable l m'.
Proof.
  revert m. induction ops as [|op ops IH]; simpl; intros m Hm Hrun.
  - congruence.
  - destruct (step l op m) as [m1|] eqn:Hstep; [|done].
    simpl in Hrun. apply (IH m1); [|done].
    by apply (reachable_step l m op m1).
Qed.

(** C5: in every manager that the overlay operations build, each dirty
    balance is the ledger balance plus the deltas recorded for that
    account in the frames up to and including its frame, and whichever of
    GetBalance, SetBalance, Snapshot and RevertToSnapshot comes next
    leaves it so. *)
Theorem dirty_invariant_preserved l m :
  reachable l m ->
  dirty_invariant l m /\
  forall op m', step l op m = Some m' -> dirty_invariant l m'.
Proof.
  intros Hm. pose proof (reachable_frames_ok l m Hm) as Hok. split.
  - by apply frames_ok_dirty_invariant.
  - intros op m' Hstep. apply frames_ok_dirty_invariant.
    by apply (frames_ok_step l op m m').
Qed.

(** *** Snapshot and revert *)


Lemma step_keeps_lower_frames l op m (lower upper : list state) :
  not_revert op = true ->
  states m = lower ++ upper -> upper <> [] ->
  exists m' upper',
    step l op m = Some m' /\ states m' = lower ++ upper' /\ upper' <> [].
Proof.
  intros Hop Hst Hne.
  destruct (exists_last Hne) as (mid & top & ->).
  assert (E : opened (states m) = (lower ++ mid) ++ [top]).
  { rewrite Hst, app_assoc. by destruct (lower ++ mid). }
  destruct op as [a|a v| |id]; [| | |done]; cbn [step].
  - eexists _, (mid ++ [top]). split; [done|].
    rewrite GetBalance_view. cbn [snd]. rewrite getCurState_states, E.
    split; [by rewrite app_assoc|]. by destruct mid.
  - pose proof (SetBalance_states l m a v _ _ E) as Hset.
    destruct (v - view l top a =? 0); rewrite <- app_assoc in Hset;
      eexists _, _; (split; [done|]); (split; [exact Hset|by destruct mid]).
  - eexists _, _. split; [done|].
    rewrite (Snapshot_spec m _ _ E). cbn [snd states withStates].
    rewrite <- app_assoc. split; [done|]. by destruct mid.
Qed.

Lemma run_keeps_lower_frames l ops m (lower upper : list state) :
  forallb not_revert ops = true ->
  states m = lower ++ upper -> upper <> [] ->
  exists m' upper',
    run l ops m = Some m' /\ states m' = lower ++ upper' /\ upper' <> [].
Proof.
  revert m upper. induction ops as [|op ops IH]; intros m upper Hops Hst Hne.
  - by exists m, upper.
  - simpl in Hops. apply andb_true_iff in Hops as [Hop Hops].
    destruct (step_keeps_lower_frames l op m lower upper Hop Hst Hne)
      as (m1 & upper1 & Hstep & Hst1 & Hne1).
    destruct (IH m1 upper1 Hops Hst1 Hne1) as (m' & upper' & Hrun & H').
    exists m', upper'. split; [|done]. simpl. by rewrite Hstep.
Qed.

(** C2: take a snapshot in any overlay state, then make any calls of
    SetBalance, Snapshot and GetBalance; reverting to the id that the
    snapshot returned succeeds, and afterwards GetBalance answers, for
    every account, what it answered just before the snapshot. *)
Theorem snapshot_revert_restores l m ops :
  forallb not_revert ops = true ->
  exists m2 m3,
    run l ops (Snapshot m).2 = Some m2 /\
    RevertToSnapshot (Snapshot m).1 m2 = Some m3 /\
    forall a, (GetBalance l m3 a).1 = (GetBalance l m a).1.
Proof.
  intros Hops.
  destruct (opened_snoc (states m)) as (below & top & E).
  rewrite (Snapshot_spec m below top E). cbn [fst snd].
  destruct (run_keeps_lower_frames l ops
              (withStates (getCurState m).2 (below ++ [top] ++
                 [{| balanceChanges := []; dirtyBalances := dirtyBalances top |}]))
              (below ++ [top])
              [{| balanceChanges := []; dirtyBalances := dirtyBalances top |}]
              Hops) as (m2 & upper & Hrun & Hst & Hne);
    [simpl; by rewrite <- app_assoc|done|].
  exists m2, (withStates m2 (below ++ [top])). split; [done|]. split.
  - apply RevertToSnapshot_spec. rewrite Hst. split.
    + rewrite !length_app. lia.
    + by rewrite Nat2Z.id, take_app_length.
  - intros a. rewrite !GetBalance_view. cbn [fst].
    rewrite (getCurState_snoc (withStates m2 (below ++ [top])) below top eq_refl).
    cbn [fst]. f_equal.
    pose proof (getCurState_top m) as Hp. unfold stack.Peek in Hp.
    rewrite getCurState_states, E, last_snoc in Hp. congruence.
Qed.

(** *** Reverting, frame by frame *)

(** C8, as amended: when [0 <= N] and the stack is at least [N] high,
    RevertToSnapshot(N) succeeds and leaves exactly the frames at indices
    below [N], each unchanged; the frame at index [N] goes with the ones
    above it. *)
Theorem revert_keeps_frames_below m N :
  0 <= N <= stack.Size (states m) ->
  exists m',
    RevertToSnapshot N m = Some m' /\
    stack.Size (states m') = N /\
    (forall i, 0 <= i < N ->
       stack.PeekAt i (states m') = stack.PeekAt i (states m)) /\
    (forall i, N <= i -> stack.PeekAt i (states m') = None).
Proof.
  intros HN. unfold stack.Size in HN.
  exists (withStates m (take (Z.to_nat N) (states m))). split.
  - by apply RevertToSnapshot_spec.
  - cbn [states withStates]. unfold stack.Size, stack.PeekAt.
    rewrite length_take. split; [lia|]. split.
    + intros i Hi. destruct (Z.leb_spec 0 i); [|lia].
      apply lookup_take_lt. lia.
    + intros i Hi. destruct (Z.leb_spec 0 i); [|done].
      apply lookup_take_ge. lia.
Qed.

End Overlay.


(** * Properties of [Commit] *)

Section Replay.
Import bank.
Context {L : Type} (K : BankKeeper.t L).

Lemma bind_eq {A B} (c1 c2 : Ledger L A) (k1 k2 : A -> Ledger L B) l :
  c1 l = c2 l -> (forall a l', k1 a l' = k2 a l') ->
  (c1 ≫= k1) l = (c2 ≫= k2) l.
Proof.
  intros Hc Hk. unfold mbind, ledger_bind. rewrite Hc.
  destruct (c2 l) as [[a|e|msg] l']; [apply Hk|done|done].
Qed.

Lemma forEach_app {A} (xs ys : list A) (f : A -> Ledger L unit) l :
  forEach (xs ++ ys) f l = (forEach xs f ;; forEach ys f) l.
Proof.
  revert l. induction xs as [|x xs IH]; intros l; [done|].
  simpl. unfold mbind, ledger_bind.
  destruct (f x l) as [[[]|e|msg] l']; [apply IH|done|done].
Qed.

Lemma forEach_eq {A} (xs : list A) (f g : A -> Ledger L unit) l :
  (forall x l', f x l' = g x l') -> forEach xs f l = forEach xs g l.
Proof.
  intros Hfg. revert l. induction xs as [|x xs IH]; intros l; [done|].
  simpl. apply bind_eq; [apply Hfg|]. intros _ l'. apply IH.
Qed.

Lemma forEach_concat {A B} (xss : list A) (g : A -> list B)
    (f : B -> Ledger L unit) l :
  forEach xss (fun xs => forEach (g xs) f) l = forEach (concat (map g xss)) f l.
Proof.
  revert l. induction xss as [|xs xss IH]; intros l; [done|].
  simpl. rewrite forEach_app. apply bind_eq; [done|]. intros _ l'. apply IH.
Qed.

(** The index loop of [Commit] visits the frames bottom-to-top. *)
Lemma forEach_PeekAt (below st : list state) (body : state -> Ledger L unit) l :
  forEach (seq (length below) (length st))
    (fun i => match stack.PeekAt (Z.of_nat i) (below ++ st) with
              | None => panic "index out of bounds"
              | Some s => body s
              end) l
  = forEach st body l.
Proof.
  revert below l. induction st as [|s st IH]; intros below l; [done|].
  simpl. apply bind_eq.
  - unfold stack.PeekAt. destruct (Z.leb_spec 0 (Z.of_nat (length below))); [|lia].
    by rewrite Nat2Z.id, list_lookup_middle.
  - intros _ l'. specialize (IH (below ++ [s]) l').
    rewrite length_app, <- app_assoc in IH. simpl in IH.
    replace (length below + 1)%nat with (S (length below)) in IH by lia.
    exact IH.
Qed.

Lemma performUntilError_app cs1 cs2 l :
  performUntilError (cs1 ++ cs2) l =
  match performUntilError cs1 l with
  | (tr, l', None) =>
      let '(tr2, l'', e) := performUntilError cs2 l' in (tr ++ tr2, l'', e)
  | (tr, l', Some e) => (tr, l', Some e)
  end.
Proof.
  revert l. induction cs1 as [|c cs1 IH]; intros l; simpl.
  - by destruct (performUntilError cs2 l) as [[tr l'] e].
  - destruct (perform c l) as [l1 [e|]]; [done|].
    rewrite IH. destruct (performUntilError cs1 l1) as [[tr l'] [e|]]; [done|].
    by destruct (performUntilError cs2 l') as [[tr2 l''] e2].
Qed.

Lemma forEach_perform cs l :
  forEach cs (fun c => try (perform c)) l =
  let '(tr, l', e) := performUntilError cs l in (outcome e false, l').
Proof.
  revert l. induction cs as [|c cs IH]; intros l; [done|].
  simpl. unfold mbind, ledger_bind, try.
  destruct (perform c l) as [l1 [e|]]; [done|].
  rewrite IH. by destruct (performUntilError cs l1) as [[tr l'] e].
Qed.

Lemma try_ret (call : L -> L * error) l :
  try call l = (try call ≫= fun _ => mret tt) l.
Proof.
  unfold mbind, ledger_bind, try. by destruct (call l) as [l' [e|]].
Qed.

Lemma BitLen_opp i : BitLen (- i) = BitLen i.
Proof. unfold BitLen. by destruct i. Qed.

Lemma commitChange_fits c l :
  fits c = true ->
  commitChange c l = forEach (replayOf c) (fun c => try (perform c)) l.
Proof.
  unfold fits, commitChange, replayOf, NewIntFromBigInt. intros Hfit.
  rewrite BitLen_opp.
  assert (H256 : (256 <? BitLen (Delta c)) = false) by (apply Z.ltb_ge; lia).
  rewrite H256. clear Hfit H256. unfold Bytes.
  destruct (Delta c) as [|p|p]; simpl; [done| |];
    (apply bind_eq; [done|]); intros _ l'; apply try_ret.
Qed.

Lemma commitChange_unfit c l :
  fits c = false ->
  commitChange c l = (Panicked "NewIntFromBigInt() out of bound", l).
Proof.
  unfold fits, commitChange, NewIntFromBigInt. intros Hfit.
  rewrite BitLen_opp.
  assert (H256 : (256 <? BitLen (Delta c)) = true) by (apply Z.ltb_lt; lia).
  rewrite H256. destruct (Delta c) as [|p|p]; [|done|done].
  unfold BitLen in H256. done.
Qed.

Lemma forEach_commitChange cs l :
  forEach cs commitChange l =
  let '(calls, stop) := planned cs in
  let '(tr, l', e) := performUntilError calls l in
  (outcome e stop, l').
Proof.
  revert l. induction cs as [|c cs IH]; intros l; [done|].
  simpl. destruct (fits c) eqn:Hfit.
  - destruct (planned cs) as [calls stop].
    rewrite performUntilError_app.
    unfold mbind, ledger_bind. rewrite (commitChange_fits c l Hfit), forEach_perform.
    destruct (performUntilError (replayOf c) l) as [[tr l1] [e|]]; [done|].
    simpl. rewrite IH.
    by destruct (performUntilError calls l1) as [[tr2 l2] e2].
  - unfold mbind, ledger_bind. by rewrite (commitChange_unfit c l Hfit).
Qed.

(** [Commit] performs the planned calls until one fails. *)
Lemma Commit_planned m l :
  Commit m l =
  let '(calls, stop) := planned (journal (opened (states m))) in
  let '(tr, l', e) := performUntilError calls l in
  (outcome e stop, l', (getCurState m).2).
Proof.
  unfold Commit. pose proof (getCurState_states m) as Hst.
  destruct (getCurState m) as [cur m1]. cbn [snd] in *.
  unfold stack.Size. rewrite Nat2Z.id.
  pose proof (forEach_PeekAt [] (states m1)
                (fun s => forEach (balanceChanges s) commitChange) l) as Hloop.
  simpl in Hloop. rewrite Hloop.
  rewrite (forEach_concat (states m1) balanceChanges commitChange l).
  fold (journal (states m1)). rewrite forEach_commitChange, Hst.
  destruct (planned (journal (opened (states m)))) as [calls stop].
  by destruct (performUntilError calls l) as [[tr l'] e].
Qed.

(** *** What [performUntilError] leaves behind *)

Lemma performAll_app cs1 cs2 l :
  performAll (cs1 ++ cs2) l = performAll cs2 (performAll cs1 l).
Proof. unfold performAll. apply foldl_app. Qed.

Lemma performUntilError_final cs l tr l' e :
  performUntilError cs l = (tr, l', e) -> l' = performAll tr l.
Proof.
  revert l tr. induction cs as [|c cs IH]; intros l tr H; simpl in H.
  - by injection H as <- <- <-.
  - destruct (perform c l) as [l1 [e1|]] eqn:Hc.
    + injection H as <- <- <-. unfold performAll. simpl. by rewrite Hc.
    + destruct (performUntilError cs l1) as [[tr1 l2] e2] eqn:Hrest.
      injection H as <- <- <-. unfold performAll. simpl. rewrite Hc.
      apply (IH l1 tr1 Hrest).
Qed.

Lemma performUntilError_prefix cs l tr l' e :
  performUntilError cs l = (tr, l', e) ->
  exists rest, cs = tr ++ rest /\ (e = None -> rest = []).
Proof.
  revert l tr. induction cs as [|c cs IH]; intros l tr H; simpl in H.
  - injection H as <- <- <-. by exists [].
  - destruct (perform c l) as [l1 [e1|]] eqn:Hc.
    + injection H as <- <- <-. by exists cs.
    + destruct (performUntilError cs l1) as [[tr1 l2] e2] eqn:Hrest.
      injection H as <- <- <-.
      destruct (IH l1 tr1 Hrest) as (rest & -> & Hnil). by exists rest.
Qed.

(** Every call made returned [nil], except that the last one returned
    what the run returned. *)
Lemma performUntilError_calls cs l tr l' e pre c post :
  performUntilError cs l = (tr, l', e) ->
  tr = pre ++ c :: post ->
  (perform c (performAll pre l)).2 =
  match post with [] => e | _ => None end.
Proof.
  revert l tr pre. induction cs as [|c0 cs IH]; intros l tr pre H Htr; simpl in H.
  - injection H as <- <- <-. by destruct pre.
  - destruct (perform c0 l) as [l1 [e1|]] eqn:Hc.
    + injection H as <- <- <-.
      destruct pre as [|p pre]; [|by destruct pre].
      injection Htr as <- <-. unfold performAll. simpl. by rewrite Hc.
    + destruct (performUntilError cs l1) as [[tr1 l2] e2] eqn:Hrest.
      injection H as <- <- <-.
      destruct pre as [|p pre]; simpl in Htr; injection Htr as <- Htr.
      * subst post. unfold performAll. simpl. rewrite Hc. simpl.
        destruct tr1; [|done].
        destruct cs as [|c1 cs]; simpl in Hrest; [by injection Hrest as <-|].
        destruct (perform c1 l1) as [l3 [e3|]]; [done|].
        by destruct (performUntilError cs l3) as [[tr3 l4] e4].
      * unfold performAll. simpl. rewrite Hc.
        apply (IH l1 tr1 pre Hrest Htr).
Qed.

Lemma planned_prefix cs calls stop :
  planned cs = (calls, stop) ->
  exists rest,
    concat (map replayOf cs) = calls ++ rest /\ (stop = false -> rest = []).
Proof.
  revert calls stop. induction cs as [|c cs IH]; intros calls stop H; simpl in H.
  - injection H as <- <-. by exists [].
  - destruct (fits c).
    + destruct (planned cs) as [calls1 stop1]. injection H as <- <-.
      destruct (IH calls1 stop1 eq_refl) as (rest & Hrest & Hnil).
      exists rest. simpl. by rewrite Hrest, app_assoc.
    + injection H as <- <-. eexists. split; [done|done].
Qed.

Lemma journal_opened st : journal (opened st) = journal st.
Proof. by destruct st. Qed.

End Replay.

(** *** The recording keeper *)

Section Recorded.
Import bank.
Context {L : Type} (K : BankKeeper.t L).

Lemma perform_recording c l log :
  perform (K := recording K) c (l, log) =
  let '(l', e) := perform c l in ((l', log ++ [c]), e).
Proof. by destruct c. Qed.

Lemma performUntilError_recording cs l log :
  performUntilError (K := recording K) cs (l, log) =
  let '(tr, l', e) := performUntilError cs l in (tr, (l', log ++ tr), e).
Proof.
  revert l log. induction cs as [|c cs IH]; intros l log; simpl.
  - by rewrite app_nil_r.
  - rewrite perform_recording. destruct (perform c l) as [l1 [e|]]; [done|].
    rewrite IH. destruct (performUntilError cs l1) as [[tr l2] e2].
    by rewrite <- app_assoc.
Qed.

(** [Commit] through the recording keeper: the log is the run. *)
Lemma Commit_recorded m l :
  Commit (K := recording K) m (l, []) =
  let '(calls, stop) := planned (journal (states m)) in
  let '(tr, l', e) := performUntilError calls l in
  (outcome e stop, (l', tr), (getCurState m).2).
Proof.
  rewrite (Commit_planned (recording K)), journal_opened.
  destruct (planned (journal (states m))) as [calls stop].
  rewrite performUntilError_recording.
  by destruct (performUntilError calls l) as [[tr l'] e].
Qed.

(** The recording keeper does to the store what [K] does. *)
Lemma Commit_recording_erased m l :
  Commit (K := K) m l =
  let '(r, (l', _), m') := Commit (K := recording K) m (l, []) in (r, l', m').
Proof.
  rewrite Commit_recorded, (Commit_planned K), journal_opened.
  destruct (planned (journal (states m))) as [calls stop].
  by destruct (performUntilError calls l) as [[tr l'] e].
Qed.

Lemma outcome_Done e stop : outcome e stop = Done tt -> e = None /\ stop = false.
Proof. destruct e, stop; simpl; done. Qed.

(** *** Balances after the replay *)

Section Balances.
Context (moduleAddress : string -> list byte) `{!Balanced K moduleAddress}.

Lemma replayOf_balance c l tr l' a :
  performUntilError (replayOf c) l = (tr, l', None) ->
  ledgerBalance l' a =
  ledgerBalance l a + (if decide (Addr c = a) then Delta c else 0).
Proof.
  unfold replayOf, ledgerBalance, Bytes, coinsOf.
  destruct (Z.ltb_spec 0 (Delta c)) as [Hpos|Hnpos];
    [|destruct (Z.ltb_spec (Delta c) 0) as [Hneg|Hnneg]].
  - simpl.
    destruct (BankKeeper.MintCoins _ _ l) as [l1 [e1|]] eqn:H1; [done|].
    destruct (BankKeeper.SendCoinsFromModuleToAccount _ _ _ l1)
      as [l2 [e2|]] eqn:H2; [done|].
    intros H. injection H as _ <-.
    rewrite (send_out_moves _ _ _ _ _ _ a H2), (mint_moves _ _ _ _ _ a H1).
    destruct (decide (a = moduleAddress ModuleName)),
      (decide (a = Addr c)), (decide (Addr c = a)); try congruence; lia.
  - simpl.
    destruct (BankKeeper.SendCoinsFromAccountToModule _ _ _ l)
      as [l1 [e1|]] eqn:H1; [done|].
    destruct (BankKeeper.BurnCoins _ _ l1) as [l2 [e2|]] eqn:H2; [done|].
    intros H. injection H as _ <-.
    rewrite (burn_moves _ _ _ _ _ a H2), (send_in_moves _ _ _ _ _ _ a H1).
    destruct (decide (a = moduleAddress ModuleName)),
      (decide (a = Addr c)), (decide (Addr c = a)); try congruence; lia.
  - simpl. intros H. injection H as _ <-.
    destruct (decide (Addr c = a)); lia.
Qed.

Lemma replay_balance cs l tr l' a :
  performUntilError (concat (map replayOf cs)) l = (tr, l', None) ->
  ledgerBalance l' a = ledgerBalance l a + deltaSum a cs.
Proof.
  revert l tr. induction cs as [|c cs IH]; intros l tr H; simpl in H.
  - injection H as _ <-. simpl. lia.
  - rewrite performUntilError_app in H.
    destruct (performUntilError (replayOf c) l) as [[tr1 l1] [e1|]] eqn:H1;
      [done|].
    destruct (performUntilError (concat (map replayOf cs)) l1)
      as [[tr2 l2] e2] eqn:H2.
    injection H as _ <- ->.
    rewrite (IH l1 tr2 H2), (replayOf_balance c l tr1 l1 a H1). simpl.
    fold (deltaSum a cs). destruct (decide (Addr c = a)); lia.
Qed.

End Balances.

(** *** Commit: what is replayed, in which order, and with what effect *)

Lemma frames_ok_current l m a :
  frames_ok l (states m) ->
  (GetBalance l m a).1 = ledgerBalance l a + deltaSum a (journal (states m)).
Proof.
  intros Hok. apply frames_ok_opened in Hok.
  rewrite GetBalance_view. cbn [fst].
  destruct (opened_snoc (states m)) as (below & top & E).
  pose proof (getCurState_top m) as Hp. unfold stack.Peek in Hp.
  rewrite getCurState_states, E, last_snoc in Hp.
  assert ((getCurState m).1 = top) as -> by congruence.
  rewrite E in Hok. apply frames_ok_snoc in Hok as [_ Htop].
  by rewrite (Htop a), <- E, journal_opened.
Qed.

(** C1: a successful Commit makes exactly the keeper calls of the recorded
    deltas, frames bottom-to-top and in append order within a frame: for a
    positive delta MintCoins to the module account and then
    SendCoinsFromModuleToAccount to the delta's account, for a negative
    one SendCoinsFromAccountToModule and then BurnCoins of the absolute
    amount.  Every call returned nil, and the store is the one these calls
    leave.  So, on a keeper whose calls move balances and for an overlay
    built over the pre-execution ledger, every account ends with the
    balance the overlay shows for it: its ledger balance changed by its
    final dirty balance minus its pre-execution ledger balance. *)
Theorem commit_replays_journal moduleAddress l m l' tr m' :
  Commit (K := recording K) m (l, []) = (Done tt, (l', tr), m') ->
  tr = replay (states m) /\
  l' = performAll tr l /\
  (forall pre c post,
     tr = pre ++ c :: post -> (perform c (performAll pre l)).2 = None) /\
  (Balanced K moduleAddress -> reachable l m ->
   forall a,
     ledgerBalance l' a = (GetBalance l m a).1 /\
     forall v, dirtyBalances (getCurState m).1 !! a = Some v ->
       ledgerBalance l' a - ledgerBalance l a = v - ledgerBalance l a).
Proof.
  intros H. rewrite Commit_recorded in H.
  destruct (planned (journal (states m))) as [calls stop] eqn:Hplan.
  destruct (performUntilError calls l) as [[tr0 l0] e] eqn:Hrun.
  injection H as Hout -> -> _.
  apply outcome_Done in Hout as [-> ->].
  destruct (planned_prefix _ _ _ Hplan) as (rest1 & Hcalls & Hnil1).
  rewrite (Hnil1 eq_refl), app_nil_r in Hcalls.
  destruct (performUntilError_prefix K _ _ _ _ _ Hrun) as (rest2 & Htr & Hnil2).
  rewrite (Hnil2 eq_refl), app_nil_r in Htr.
  split; [unfold replay; congruence|]. split; [by apply (performUntilError_final K _ _ _ _ _ Hrun)|].
  split.
  - intros pre c post Hsplit.
    rewrite (performUntilError_calls K _ _ _ _ _ pre c post Hrun Hsplit).
    by destruct post.
  - intros HB Hreach a.
    pose proof (reachable_frames_ok l m Hreach) as Hok.
    assert (Hbal : ledgerBalance l' a = (GetBalance l m a).1).
    { rewrite (frames_ok_current l m a Hok).
      rewrite <- Hcalls in Hrun.
      apply (replay_balance moduleAddress _ _ _ _ a Hrun). }
    split; [done|]. intros v Hv. rewrite Hbal, GetBalance_view. cbn [fst].
    unfold view. by rewrite Hv.
Qed.

(** C4: when a keeper call made during Commit returns an error, that call
    is the last one Commit makes, Commit returns that very error, and the
    store is the one left by the calls made so far, the failing one
    included: nothing that was applied is undone.  The calls made are the
    replay of the journal up to that call. *)
Theorem commit_stops_at_first_error l m out l' tr m' pre c post e :
  Commit (K := recording K) m (l, []) = (out, (l', tr), m') ->
  tr = pre ++ c :: post ->
  (perform c (performAll pre l)).2 = Some e ->
  post = [] /\
  out = Failed e /\
  l' = (perform c (performAll pre l)).1 /\
  exists rest, replay (states m) = pre ++ c :: rest.
Proof.
  intros H Hsplit Herr. rewrite Commit_recorded in H.
  destruct (planned (journal (states m))) as [calls stop] eqn:Hplan.
  destruct (performUntilError calls l) as [[tr0 l0] e0] eqn:Hrun.
  injection H as <- -> -> _.
  pose proof (performUntilError_calls K _ _ _ _ _ pre c post Hrun Hsplit) as Hc.
  rewrite Herr in Hc. destruct post as [|c' post]; [|done]. subst e0.
  split; [done|]. split; [done|]. split.
  - rewrite (performUntilError_final K _ _ _ _ _ Hrun), Hsplit.
    rewrite performAll_app. done.
  - destruct (planned_prefix _ _ _ Hplan) as (rest1 & Hcalls & _).
    destruct (performUntilError_prefix K _ _ _ _ _ Hrun) as (rest2 & Htr & _).
    exists (rest2 ++ rest1). unfold replay.
    rewrite Hcalls, Htr, Hsplit, <- !app_assoc. done.
Qed.

(** C10, as amended: a successful Commit leaves every frame as it was,
    delta logs and dirty maps included; on a stack that is still empty it
    first creates the one empty frame, and on any other stack it changes
    nothing at all.  Finalize changes nothing.  So a second Commit makes
    the same keeper calls once more, in the same order, until one of them
    fails; the overlay is again unchanged. *)
Theorem commit_keeps_overlay l m l1 tr1 m1 :
  Commit (K := recording K) m (l, []) = (Done tt, (l1, tr1), m1) ->
  states m1 = opened (states m) /\
  readOnly m1 = readOnly m /\
  (states m <> [] -> m1 = m) /\
  Finalize m1 = m1 /\
  Commit (K := recording K) (Finalize m1) (l1, []) =
    (let '(tr2, l2, e2) := performUntilError tr1 l1 in
     (outcome e2 false, (l2, tr2), m1)).
Proof.
  intros H. pose proof H as H'. rewrite Commit_recorded in H'.
  destruct (planned (journal (states m))) as [calls stop] eqn:Hplan.
  destruct (performUntilError calls l) as [[tr0 l0] e] eqn:Hrun.
  remember (getCurState m) as g eqn:Hg.
  injection H' as Hout -> -> <-. subst g.
  apply outcome_Done in Hout as [-> ->].
  destruct (performUntilError_prefix K _ _ _ _ _ Hrun) as (rest2 & Htr & Hnil2).
  rewrite (Hnil2 eq_refl), app_nil_r in Htr. subst calls.
  split; [apply getCurState_states|]. split; [apply getCurState_readOnly|].
  split.
  { intros Hne. destruct (exists_last Hne) as (below & top & E).
    by rewrite (getCurState_snoc m below top E). }
  split; [done|]. unfold Finalize.
  rewrite Commit_recorded, getCurState_states, journal_opened, Hplan.
  destruct (opened_snoc (states m)) as (below & top & E).
  assert (Hm : (getCurState (getCurState m).2).2 = (getCurState m).2).
  { rewrite (getCurState_snoc (getCurState m).2 below top); [done|].
    by rewrite getCurState_states. }
  rewrite Hm. done.
Qed.

End Recorded.

(** * Properties of the admission pool *)

Section Admission.
Import mempool.
Context {P : Type} (U : PriorityNonceMempool.t P).

Lemma checkSigners_reserved signers signer :
  signer ∈ signers -> BytesToAddress signer = ReservedAddress ->
  exists err, checkSigners signers = Some err.
Proof.
  intros Hin Hres. induction Hin as [signer signers|signer other signers _ IH];
    simpl.
  - rewrite bool_decide_eq_true_2 by done. eauto.
  - destruct (bool_decide (BytesToAddress other = ReservedAddress)); eauto.
Qed.

Lemma checkTxSigner_reserved tx signer :
  signer ∈ (GetSigners tx).1 -> BytesToAddress signer = ReservedAddress ->
  exists err, checkTxSigner tx = Some err.
Proof.
  intros Hin Hres. unfold checkTxSigner.
  destruct (sigVerifiable tx); simpl; [|eauto].
  destruct (GetSigners tx) as [signers [e|]]; simpl in *.
  - unfold errorslib.Wrap. eauto.
  - by apply (checkSigners_reserved signers signer).
Qed.

(** C7: when one of the signers of a transaction resolves to the reserved
    address, Insert returns an error and leaves the whole pool as it was:
    the priority pool is not called, and the Tx Cache and the Nonce Index
    get no entry.  Nonce and fee play no part. *)
Theorem insert_rejects_reserved_signer (etp : EthTxPool P) tx signer :
  signer ∈ (GetSigners tx).1 ->
  BytesToAddress signer = ReservedAddress ->
  exists err, Insert etp tx = (etp, Some err).
Proof.
  intros Hin Hres.
  destruct (checkTxSigner_reserved tx signer Hin Hres) as (err & Herr).
  exists err. unfold Insert. by rewrite Herr.
Qed.

(** The path of [Insert] for a stale execution-engine transaction. *)
Lemma Insert_stale (etp : EthTxPool P) tx ethTx :
  GetAsEthTx tx = Some ethTx ->
  (Nonce ethTx < nr etp (GetSender ethTx))%N ->
  Insert etp tx =
  match checkTxSigner tx with
  | Some err => (etp, Some err)
  | None =>
      match PriorityNonceMempool.Insert tx (pool etp) with
      | (p, Some err) => (withPool etp p, Some err)
      | (p, None) =>
          let '(p', err) := PriorityNonceMempool.Remove tx p in
          (withPool etp p', errorslib.Wrap err "nonce too low")
      end
  end.
Proof.
  intros Heth Hstale. unfold Insert.
  destruct (checkTxSigner tx) as [e0|]; [done|].
  destruct (PriorityNonceMempool.Insert tx (pool etp)) as [p [e1|]]; [done|].
  rewrite Heth. cbn [nr withPool pool].
  apply N.ltb_lt in Hstale. rewrite Hstale.
  by destruct (PriorityNonceMempool.Remove tx p) as [p' e2].
Qed.

(** C3: Insert of an execution-engine transaction whose nonce is below
    GetNonce(sender) returns an error and adds nothing to the Tx Cache or
    the Nonce Index.  When the signer check and the priority pool's own
    Insert let it through, the priority pool is left as its Remove of the
    transaction leaves it, and the error is the wrapped result of that
    Remove. *)
Theorem insert_rejects_stale_nonce (etp : EthTxPool P) tx ethTx :
  GetAsEthTx tx = Some ethTx ->
  (Nonce ethTx < nr etp (GetSender ethTx))%N ->
  (exists err, (Insert etp tx).2 = Some err) /\
  ethTxCache (Insert etp tx).1 = ethTxCache etp /\
  nonceToHash (Insert etp tx).1 = nonceToHash etp /\
  (checkTxSigner tx = None ->
   (PriorityNonceMempool.Insert tx (pool etp)).2 = None ->
   let inserted := (PriorityNonceMempool.Insert tx (pool etp)).1 in
   pool (Insert etp tx).1 = (PriorityNonceMempool.Remove tx inserted).1 /\
   (Insert etp tx).2 =
     errorslib.Wrap (PriorityNonceMempool.Remove tx inserted).2 "nonce too low").
Proof.
  intros Heth Hstale. rewrite (Insert_stale etp tx ethTx Heth Hstale).
  destruct (checkTxSigner tx) as [e0|];
    [simpl; repeat split; try done; eauto|].
  destruct (PriorityNonceMempool.Insert tx (pool etp)) as [p [e1|]];
    [simpl; repeat split; try done; eauto|].
  cbn [fst snd]. destruct (PriorityNonceMempool.Remove tx p) as [p' e2].
  unfold errorslib.Wrap. simpl. repeat split; try done; eauto.
Qed.

(** C6, as amended: when Insert admits an execution-engine transaction
    whose (sender, nonce) the Nonce Index maps to an old hash, then
    afterwards the Nonce Index maps (sender, nonce) to the new hash and to
    no other, the Tx Cache maps the new hash to the new transaction, and
    the old hash, when it differs from the new one, is no longer in the
    Tx Cache. *)
Theorem insert_replaces_by_nonce (etp : EthTxPool P) tx ethTx old :
  GetAsEthTx tx = Some ethTx ->
  indexed etp (GetSender ethTx) (Nonce ethTx) = Some old ->
  (Insert etp tx).2 = None ->
  (old <> Hash ethTx -> cached (Insert etp tx).1 old = None) /\
  (forall h, indexed (Insert etp tx).1 (GetSender ethTx) (Nonce ethTx) = Some h
             <-> h = Hash ethTx) /\
  cached (Insert etp tx).1 (Hash ethTx) = Some ethTx.
Proof.
  intros Heth Hold. unfold Insert.
  destruct (checkTxSigner tx) as [e0|]; [done|].
  destruct (PriorityNonceMempool.Insert tx (pool etp)) as [p [e1|]]; [done|].
  rewrite Heth. cbn [nr withPool nonceToHash ethTxCache pool].
  destruct (Nonce ethTx <? nr etp (GetSender ethTx))%N.
  { destruct (PriorityNonceMempool.Remove tx p) as [p' e2]. done. }
  intros _. unfold indexed, cached in *. cbn [nonceToHash ethTxCache fst].
  destruct (nonceToHash etp !! GetSender ethTx) as [byNonce|] eqn:Hidx; [|done].
  simpl in Hold. rewrite Hold. simpl. split; [|split].
  - intros Hne. rewrite lookup_insert_ne by done. apply lookup_delete_eq.
  - intros h. rewrite lookup_insert_eq. simpl. rewrite Hidx. simpl.
    rewrite lookup_insert_eq. split; congruence.
  - apply lookup_insert_eq.
Qed.

(** C9: Remove of an execution-engine transaction, when the priority
    pool's Remove succeeds, deletes the Tx Cache entry under the
    transaction's own hash and the Nonce Index entry of its
    (sender, nonce), whatever hash that entry holds; when the priority
    pool's Remove fails, Remove returns that error and the Tx Cache and the
    Nonce Index are unchanged. *)
Theorem remove_clears_entries (etp : EthTxPool P) tx ethTx :
  GetAsEthTx tx = Some ethTx ->
  (forall p, PriorityNonceMempool.Remove tx (pool etp) = (p, None) ->
     (Remove etp tx).2 = None /\
     pool (Remove etp tx).1 = p /\
     ethTxCache (Remove etp tx).1 = delete (Hash ethTx) (ethTxCache etp) /\
     cached (Remove etp tx).1 (Hash ethTx) = None /\
     indexed (Remove etp tx).1 (GetSender ethTx) (Nonce ethTx) = None /\
     forall a n, (a, n) <> (GetSender ethTx, Nonce ethTx) ->
       indexed (Remove etp tx).1 a n = indexed etp a n) /\
  (forall p err, PriorityNonceMempool.Remove tx (pool etp) = (p, Some err) ->
     (Remove etp tx).2 = Some err /\
     ethTxCache (Remove etp tx).1 = ethTxCache etp /\
     nonceToHash (Remove etp tx).1 = nonceToHash etp).
Proof.
  intros Heth. unfold Remove. split.
  - intros p Hp. rewrite Hp, Heth. unfold cached, indexed.
    cbn [fst snd pool ethTxCache nonceToHash withPool].
    split; [done|]. split; [done|]. split; [done|].
    split; [apply lookup_delete_eq|]. split.
    + rewrite lookup_alter_eq.
      destruct (nonceToHash etp !! GetSender ethTx) as [byNonce|]; [|done].
      simpl. apply lookup_delete_eq.
    + intros a n Hne.
      destruct (decide (a = GetSender ethTx)) as [->|Ha].
      * rewrite lookup_alter_eq.
        destruct (nonceToHash etp !! GetSender ethTx) as [byNonce|]; [|done].
        simpl. apply lookup_delete_ne. congruence.
      * by rewrite lookup_alter_ne.
  - intros p err Hp. by rewrite Hp.
Qed.

End Admission.

(** * The reference keeper moves balances *)

Section Simple.
Import bank.

Lemma balanceOf_insert (l : gmap (list byte * string) Z) a d v b d' :
  simple.balanceOf (<[(a, d) := v]> l) b d' =
  if decide ((a, d) = (b, d')) then v else simple.balanceOf l b d'.
Proof.
  unfold simple.balanceOf. rewrite lookup_insert.
  by destruct (decide ((a, d) = (b, d'))).
Qed.

#[global] Instance simple_balanced : Balanced simple.keeper simple.moduleAddress.
Proof.
  split.
  - intros md d x l l' a H. simpl in *. injection H as <-.
    rewrite balanceOf_insert.
    destruct (decide (a = simple.moduleAddress md)) as [Heq|Hne];
      case_decide; simplify_eq; lia.
  - intros md d x l l' a H. simpl in *.
    destruct (simple.balanceOf l (simple.moduleAddress md) d <? x); [done|].
    injection H as <-. rewrite balanceOf_insert.
    destruct (decide (a = simple.moduleAddress md)) as [Heq|Hne];
      case_decide; simplify_eq; lia.
  - intros md to d x l l' a H. simpl in *. unfold simple.send in H. simpl in H.
    destruct (simple.balanceOf l (simple.moduleAddress md) d <? x); [done|].
    injection H as <-. rewrite !balanceOf_insert.
    destruct (decide (a = simple.moduleAddress md)) as [Heq|Hne],
      (decide (a = to)) as [Heq'|Hne'];
      repeat case_decide; simplify_eq; lia.
  - intros from md d x l l' a H. simpl in *. unfold simple.send in H. simpl in H.
    destruct (simple.balanceOf l from d <? x); [done|].
    injection H as <-. rewrite !balanceOf_insert.
    destruct (decide (a = simple.moduleAddress md)) as [Heq|Hne],
      (decide (a = from)) as [Heq'|Hne'];
      repeat case_decide; simplify_eq; lia.
Qed.

End Simple.

(** * The examples, checked *)

Section Checked.
Import bank mempool examples.

Lemma run_shape {L : Type} (r : Result unit * (L * list BankCall) * Manager) out :
  r.1.1 = out -> r = (out, (r.1.2.1, r.1.2.2), r.2).
Proof. destruct r as [[r [l tr]] m]. simpl. by intros ->. Qed.

Lemma settled_reachable : reachable ledger0 settled.
Proof.
  apply (run_reachable ledger0 script NewManager); [apply reachable_new|].
  vm_compute. reflexivity.
Qed.

Lemma dirty_invariant_preserved_witness :
  reachable ledger0 settled /\
  (dirty_invariant ledger0 settled /\
   forall op m', step ledger0 op settled = Some m' -> dirty_invariant ledger0 m').
Proof.
  split; [exact settled_reachable|].
  exact (dirty_invariant_preserved ledger0 settled settled_reachable).
Defined.

Lemma snapshot_revert_restores_witness :
  forallb not_revert [OpSetBalance alice 0; OpSnapshot; OpSetBalance bob 7] = true /\
  exists m2 m3,
    run ledger0 [OpSetBalance alice 0; OpSnapshot; OpSetBalance bob 7]
        (Snapshot raised).2 = Some m2 /\
    RevertToSnapshot (Snapshot raised).1 m2 = Some m3 /\
    forall a, (GetBalance ledger0 m3 a).1 = (GetBalance ledger0 raised a).1.
Proof.
  split; [reflexivity|].
  apply (snapshot_revert_restores ledger0 raised
           [OpSetBalance alice 0; OpSnapshot; OpSetBalance bob 7]).
  reflexivity.
Defined.

(** The example of the spec: after the revert [alice] reads 150 again. *)
Example settled_balance : (GetBalance ledger0 settled alice).1 = 150.
Proof. vm_compute. reflexivity. Qed.

Lemma revert_keeps_frames_below_witness :
  0 <= 1 <= stack.Size (states twoFrames) /\
  exists m',
    RevertToSnapshot 1 twoFrames = Some m' /\
    stack.Size (states m') = 1 /\
    (forall i, 0 <= i < 1 ->
       stack.PeekAt i (states m') = stack.PeekAt i (states twoFrames)) /\
    (forall i, 1 <= i -> stack.PeekAt i (states m') = None).
Proof.
  assert (H : 0 <= 1 <= stack.Size (states twoFrames)).
  { vm_compute. split; discriminate. }
  split; [exact H|]. exact (revert_keeps_frames_below twoFrames 1 H).
Defined.

(** C8 as stated fails: with two frames on the stack, RevertToSnapshot(1)
    leaves the frame at index 0 only. *)
Lemma revert_drops_frame_at_id : ~ keeps_frames_through 1 twoFrames.
Proof.
  assert (Hlen : length (states twoFrames) = 2%nat) by (vm_compute; reflexivity).
  intros H. destruct H as (m' & Hrev & Hkeep).
  { unfold stack.Size. rewrite Hlen. lia. }
  specialize (Hkeep 1 ltac:(lia)).
  apply RevertToSnapshot_spec in Hrev as [_ ->].
  unfold stack.PeekAt in Hkeep. cbn [Z.leb Z.compare states withStates] in Hkeep.
  rewrite lookup_take_ge in Hkeep by (simpl; lia).
  destruct (lookup_lt_is_Some_2 (states twoFrames) (Z.to_nat 1)) as [f Hf];
    [rewrite Hlen; simpl; lia|].
  congruence.
Qed.

Lemma commit_replays_journal_witness :
  settledRun =
    (Done tt, (settledRun.1.2.1, settledRun.1.2.2), settledRun.2) /\
  (settledRun.1.2.2 = replay (states settled) /\
   settledRun.1.2.1 = performAll settledRun.1.2.2 ledger0 /\
   (forall a,
      ledgerBalance settledRun.1.2.1 a = (GetBalance ledger0 settled a).1 /\
      forall v, dirtyBalances (getCurState settled).1 !! a = Some v ->
        ledgerBalance settledRun.1.2.1 a - ledgerBalance ledger0 a =
        v - ledgerBalance ledger0 a)).
Proof.
  assert (H : settledRun =
    (Done tt, (settledRun.1.2.1, settledRun.1.2.2), settledRun.2)).
  { apply run_shape. vm_compute. reflexivity. }
  split; [exact H|].
  destruct (commit_replays_journal simple.keeper simple.moduleAddress
              ledger0 settled _ _ _ H) as (Htr & Hl & _ & Hbal).
  split; [exact Htr|]. split; [exact Hl|].
  exact (Hbal simple_balanced settled_reachable).
Defined.

(** The example of the spec: Commit mints 50 and sends it to [alice],
    whose ledger balance becomes 150. *)
Example settled_commit :
  settledRun.1.2.2 =
    [CallMintCoins ModuleName (coinsOf 50);
     CallSendCoinsFromModuleToAccount ModuleName alice (coinsOf 50)] /\
  ledgerBalance settledRun.1.2.1 alice = 150.
Proof. vm_compute. split; reflexivity. Qed.

Lemma commit_stops_at_first_error_witness :
  spentAgain = (spentAgain.1.1, (spentAgain.1.2.1, spentAgain.1.2.2), spentAgain.2) /\
  spentAgain.1.2.2 = [] ++ debitAlice :: [] /\
  (perform debitAlice (performAll [] ledger1)).2 = Some simple.insufficientFunds /\
  ([] = @nil BankCall /\
   spentAgain.1.1 = Failed simple.insufficientFunds /\
   spentAgain.1.2.1 = (perform debitAlice (performAll [] ledger1)).1 /\
   exists rest, replay (states spent) = [] ++ debitAlice :: rest).
Proof.
  assert (H1 : spentAgain =
    (spentAgain.1.1, (spentAgain.1.2.1, spentAgain.1.2.2), spentAgain.2)).
  { apply run_shape. reflexivity. }
  assert (H2 : spentAgain.1.2.2 = [] ++ debitAlice :: []).
  { vm_compute. reflexivity. }
  assert (H3 : (perform debitAlice (performAll [] ledger1)).2
               = Some simple.insufficientFunds).
  { vm_compute. reflexivity. }
  split; [exact H1|]. split; [exact H2|]. split; [exact H3|].
  exact (commit_stops_at_first_error simple.keeper ledger1 spent
           _ _ _ _ [] debitAlice [] simple.insufficientFunds H1 H2 H3).
Defined.

Lemma commit_keeps_overlay_witness :
  spentRun = (Done tt, (spentRun.1.2.1, spentRun.1.2.2), spentRun.2) /\
  (states spentRun.2 = opened (states spent) /\
   readOnly spentRun.2 = readOnly spent /\
   (states spent <> [] -> spentRun.2 = spent) /\
   Finalize spentRun.2 = spentRun.2 /\
   Commit (K := recording simple.keeper) (Finalize spentRun.2)
          (spentRun.1.2.1, []) =
     (let '(tr2, l2, e2) := performUntilError spentRun.1.2.2 spentRun.1.2.1 in
      (outcome e2 false, (l2, tr2), spentRun.2))).
Proof.
  assert (H : spentRun = (Done tt, (spentRun.1.2.1, spentRun.1.2.2), spentRun.2)).
  { apply run_shape. vm_compute. reflexivity. }
  split; [exact H|].
  exact (commit_keeps_overlay simple.keeper ledger0 spent _ _ _ H).
Defined.

(** The second Commit of the spending overlay asks for the same debit and
    fails on it, the ledger being empty by then. *)
Example spent_twice :
  spentRun.1.2.2 = [debitAlice; CallBurnCoins ModuleName (coinsOf 100)] /\
  spentAgain.1.1 = Failed simple.insufficientFunds /\
  spentAgain.1.2.2 = [debitAlice].
Proof. vm_compute. repeat split; reflexivity. Qed.

(** C10 as stated fails: Commit on a fresh manager succeeds and leaves a
    frame on the stack that was not there. *)
Lemma commit_creates_first_frame : ~ commit_leaves_stack NewManager ledger0.
Proof.
  intros H. specialize (H ltac:(vm_compute; reflexivity)).
  apply (f_equal length) in H. vm_compute in H. discriminate.
Qed.

(** *** The admission pool *)

Lemma insert_rejects_reserved_signer_witness :
  ReservedAddress ∈ (GetSigners (signedBy ReservedAddress ethTx5)).1 /\
  BytesToAddress ReservedAddress = ReservedAddress /\
  exists err,
    Insert (U := scripted false false) emptyPool (signedBy ReservedAddress ethTx5)
    = (emptyPool, Some err).
Proof.
  assert (H1 : ReservedAddress ∈ (GetSigners (signedBy ReservedAddress ethTx5)).1).
  { simpl. constructor. }
  assert (H2 : BytesToAddress ReservedAddress = ReservedAddress).
  { vm_compute. reflexivity. }
  split; [exact H1|]. split; [exact H2|].
  exact (insert_rejects_reserved_signer (scripted false false) emptyPool
           (signedBy ReservedAddress ethTx5) ReservedAddress H1 H2).
Defined.

Lemma insert_rejects_stale_nonce_witness :
  GetAsEthTx (signedBy alice ethTx4) = Some ethTx4 /\
  (Nonce ethTx4 < nr emptyPool (GetSender ethTx4))%N /\
  (exists err,
     (Insert (U := scripted false false) emptyPool (signedBy alice ethTx4)).2
     = Some err) /\
  pool (Insert (U := scripted false false) emptyPool (signedBy alice ethTx4)).1
  = [PoolInsert (signedBy alice ethTx4); PoolRemove (signedBy alice ethTx4)].
Proof.
  assert (H1 : GetAsEthTx (signedBy alice ethTx4) = Some ethTx4) by reflexivity.
  assert (H2 : (Nonce ethTx4 < nr emptyPool (GetSender ethTx4))%N) by reflexivity.
  split; [exact H1|]. split; [exact H2|].
  destruct (insert_rejects_stale_nonce (scripted false false) emptyPool
              (signedBy alice ethTx4) ethTx4 H1 H2) as (Herr & _ & _ & Hpool).
  split; [exact Herr|].
  destruct (Hpool eq_refl eq_refl) as [-> _]. reflexivity.
Defined.

Lemma insert_replaces_by_nonce_witness :
  GetAsEthTx (signedBy alice ethTx5') = Some ethTx5' /\
  indexed holding5 (GetSender ethTx5') (Nonce ethTx5') = Some (Hash ethTx5) /\
  (Insert (U := scripted false false) holding5 (signedBy alice ethTx5')).2 = None /\
  Hash ethTx5 <> Hash ethTx5' /\
  cached (Insert (U := scripted false false) holding5 (signedBy alice ethTx5')).1
         (Hash ethTx5) = None /\
  cached (Insert (U := scripted false false) holding5 (signedBy alice ethTx5')).1
         (Hash ethTx5') = Some ethTx5'.
Proof.
  assert (H1 : GetAsEthTx (signedBy alice ethTx5') = Some ethTx5') by reflexivity.
  assert (H2 : indexed holding5 (GetSender ethTx5') (Nonce ethTx5')
               = Some (Hash ethTx5)).
  { vm_compute. reflexivity. }
  assert (H3 : (Insert (U := scripted false false) holding5
                  (signedBy alice ethTx5')).2 = None).
  { vm_compute. reflexivity. }
  assert (H4 : Hash ethTx5 <> Hash ethTx5') by (vm_compute; discriminate).
  split; [exact H1|]. split; [exact H2|]. split; [exact H3|]. split; [exact H4|].
  destruct (insert_replaces_by_nonce (scripted false false) holding5
              (signedBy alice ethTx5') ethTx5' (Hash ethTx5) H1 H2 H3)
    as (Hold & _ & Hnew).
  split; [exact (Hold H4)|exact Hnew].
Defined.

(** C6 as stated fails: inserting the transaction that is already cached
    once more leaves its hash, the old one, in the Tx Cache. *)
Lemma reinsert_keeps_hash :
  ~ evicts_old_hash (U := scripted false false) holding5 (signedBy alice ethTx5).
Proof.
  intros H.
  destruct (H ethTx5 (Hash ethTx5) eq_refl) as (Hgone & _).
  - vm_compute. reflexivity.
  - vm_compute. reflexivity.
  - vm_compute in Hgone. discriminate.
Qed.

Lemma remove_clears_entries_witness :
  GetAsEthTx (signedBy alice ethTx5) = Some ethTx5 /\
  (Remove (U := scripted false false) holding5 (signedBy alice ethTx5)).2 = None /\
  cached (Remove (U := scripted false false) holding5 (signedBy alice ethTx5)).1
         (Hash ethTx5) = None /\
  indexed (Remove (U := scripted false false) holding5 (signedBy alice ethTx5)).1
          alice 5%N = None /\
  (Remove (U := scripted false true) holding5 (signedBy alice ethTx5)).2
  = Some (externalError 2) /\
  ethTxCache (Remove (U := scripted false true) holding5 (signedBy alice ethTx5)).1
  = ethTxCache holding5.
Proof.
  assert (H1 : GetAsEthTx (signedBy alice ethTx5) = Some ethTx5) by reflexivity.
  split; [exact H1|].
  destruct (remove_clears_entries (scripted false false) holding5
              (signedBy alice ethTx5) ethTx5 H1) as (Hok & _).
  destruct (Hok _ eq_refl) as (Hnil & _ & _ & Hcache & Hindex & _).
  destruct (remove_clears_entries (scripted false true) holding5
              (signedBy alice ethTx5) ethTx5 H1) as (_ & Hfail).
  destruct (Hfail _ _ eq_refl) as (Herr & Hsame & _).
  split; [exact Hnil|]. split; [exact Hcache|]. split; [exact Hindex|].
  split; [exact Herr|exact Hsame].
Defined.

(** Remove of the superseded [ethTx5] takes the Nonce Index entry of the
    newer [ethTx5'] with it. *)
Example remove_stale_handle :
  let replaced :=
    (Insert (U := scripted false false) holding5 (signedBy alice ethTx5')).1 in
  indexed replaced alice 5%N = Some (Hash ethTx5') /\
  indexed (Remove (U := scripted false false) replaced (signedBy alice ethTx5)).1
          alice 5%N = None.
Proof. vm_compute. split; reflexivity. Qed.

End Checked.

(** * Further properties of the balance overlay *)

Section MoreOverlay.
Import bank.
Context {L : Type} `{K : BankKeeper.t L}.

Lemma GetBalance_top l m below top a :
  opened (states m) = below ++ [top] -> (GetBalance l m a).1 = view l top a.
Proof.
  intros E. rewrite GetBalance_view. cbn [fst].
  pose proof (getCurState_top m) as Hp. unfold stack.Peek in Hp.
  rewrite getCurState_states, E, last_snoc in Hp.
  by assert ((getCurState m).1 = top) as -> by congruence.
Qed.

Lemma opened_nonempty (st : list state) : st <> [] -> opened st = st.
Proof. by destruct st. Qed.

Lemma opened_idem (st : list state) : opened (opened st) = opened st.
Proof. by destruct st. Qed.

Lemma SetBalance_opened l m a v :
  opened (states (SetBalance l m a v)) = states (SetBalance l m a v).
Proof.
  destruct (opened_snoc (states m)) as (below & top & E).
  rewrite (SetBalance_states l m a v below top E).
  destruct (v - view l top a =? 0); apply opened_nonempty; by destruct below.
Qed.

Lemma GetBalance_after_set l m a v b :
  (GetBalance l (SetBalance l m a v) b).1 =
  if decide (b = a) then v else (GetBalance l m b).1.
Proof.
  destruct (opened_snoc (states m)) as (below & top & E).
  pose proof (SetBalance_states l m a v below top E) as Hst.
  rewrite (GetBalance_top l m below top b E).
  destruct (Z.eqb_spec (v - view l top a) 0) as [Hz|Hnz].
  - rewrite (GetBalance_top l _ below top b);
      [|rewrite Hst; apply opened_nonempty; by destruct below].
    destruct (decide (b = a)) as [->|Hne]; [lia|done].
  - erewrite (GetBalance_top l _ below _ b);
      [|rewrite Hst; apply opened_nonempty; by destruct below].
    unfold view. simpl.
    destruct (decide (b = a)) as [->|Hne].
    + by rewrite lookup_insert_eq.
    + by rewrite lookup_insert_ne.
Qed.

(** X1: whatever the overlay held, GetBalance right after
    SetBalance(addr, v) returns v for addr. *)
Theorem set_then_get l m a v :
  (GetBalance l (SetBalance l m a v) a).1 = v.
Proof. rewrite GetBalance_after_set. by destruct (decide (a = a)). Qed.

(** X2: SetBalance(addr, v) changes the balance read for no other
    account. *)
Theorem set_keeps_other_accounts l m a v b :
  b <> a ->
  (GetBalance l (SetBalance l m a v) b).1 = (GetBalance l m b).1.
Proof.
  intros Hne. rewrite GetBalance_after_set. by destruct (decide (b = a)).
Qed.

(** X3: SetBalance is idempotent: writing the same value a second time
    leaves the manager exactly as the first write left it, with no second
    delta in the journal. *)
Theorem set_twice_is_set_once l m a v :
  SetBalance l (SetBalance l m a v) a v = SetBalance l m a v.
Proof.
  pose proof (GetBalance_after_set l m a v a) as Hget.
  destruct (decide (a = a)); [|done].
  pose proof (SetBalance_opened l m a v) as Hop.
  remember (SetBalance l m a v) as m1 eqn:Hm1. clear Hm1.
  destruct (opened_snoc (states m1)) as (below & top & E). rewrite Hop in E.
  unfold SetBalance at 1. rewrite GetBalance_view in *. cbn [fst] in Hget.
  rewrite (getCurState_snoc m1 below top E) in *. cbn [fst snd] in *.
  rewrite Hget, Z.sub_diag. done.
Qed.

(** X4: Snapshot returns the height the stack has on entry, counting the
    first frame that is created on the way when the stack is still empty,
    so ids start at 1; it leaves the stack one frame higher, and two
    snapshots in a row return consecutive ids. *)
Theorem snapshot_ids m :
  (Snapshot m).1 = Z.max 1 (stack.Size (states m)) /\
  stack.Size (states (Snapshot m).2) = (Snapshot m).1 + 1 /\
  (Snapshot (Snapshot m).2).1 = (Snapshot m).1 + 1.
Proof.
  destruct (opened_snoc (states m)) as (below & top & E).
  rewrite (Snapshot_spec m below top E). cbn [fst snd states withStates].
  set (new := {| balanceChanges := []; dirtyBalances := dirtyBalances top |}).
  assert (Hlen : Z.of_nat (length (below ++ [top])) = Z.max 1 (stack.Size (states m))).
  { unfold stack.Size. destruct (states m) as [|f st] eqn:Es.
    - simpl in E. destruct below as [|? [|? ?]]; simplify_eq; done.
    - simpl in E. rewrite <- E. simpl. lia. }
  split; [done|]. split.
  - unfold stack.Size. rewrite !length_app. simpl. lia.
  - erewrite (Snapshot_spec _ (below ++ [top]) new).
    + cbn [fst]. rewrite !length_app. simpl. lia.
    + cbn [states withStates]. rewrite app_assoc.
      apply opened_nonempty. by destruct (below ++ [top]).
Qed.

(** X5: Snapshot is invisible to reads and to the journal: GetBalance
    returns the same for every account after it, and the recorded deltas
    are the same, so a Commit replays the same calls. *)
Theorem snapshot_is_invisible l m :
  (forall a, (GetBalance l (Snapshot m).2 a).1 = (GetBalance l m a).1) /\
  journal (states (Snapshot m).2) = journal (states m).
Proof.
  destruct (opened_snoc (states m)) as (below & top & E).
  rewrite (Snapshot_spec m below top E). cbn [snd]. split.
  - intros a. rewrite (GetBalance_top l m below top a E).
    rewrite (GetBalance_top l _ (below ++ [top])
               {| balanceChanges := []; dirtyBalances := dirtyBalances top |} a);
      [done|].
    cbn [states withStates]. rewrite app_assoc.
    apply opened_nonempty. by destruct (below ++ [top]).
  - cbn [states withStates]. rewrite app_assoc, journal_app, journal_single.
    simpl. by rewrite app_nil_r, <- E, journal_opened.
Qed.

(** X6: RevertToSnapshot(0) succeeds on every stack and discards all of
    it: no delta is left to commit, and GetBalance answers every account
    from the ledger. *)
Theorem revert_to_zero_discards_all l m :
  exists m',
    RevertToSnapshot 0 m = Some m' /\
    states m' = [] /\
    forall a, (GetBalance l m' a).1 = ledgerBalance l a.
Proof.
  exists (withStates m []). split; [|split; [done|]].
  - apply RevertToSnapshot_spec. split; [lia|]. by rewrite take_0.
  - intros a. erewrite (GetBalance_top l _ [] emptyState a); [|done].
    unfold view. simpl. by rewrite lookup_empty.
Qed.

(** *** Invariants of the journal *)

Lemma journal_take_drop (st : list state) n :
  journal st = journal (take n st) ++ journal (drop n st).
Proof. by rewrite <- journal_app, take_drop. Qed.

(** The stack after one overlay call, in terms of the stack before. *)
Lemma step_states l op m m' :
  step l op m = Some m' ->
  exists below top, opened (states m) = below ++ [top] /\
    (states m' = below ++ [top] \/
     (exists a v, v - view l top a <> 0 /\
        states m' = below ++
          [{| balanceChanges :=
                balanceChanges top ++ [{| Addr := a; Delta := v - view l top a |}];
              dirtyBalances := <[a := v]> (dirtyBalances top) |}]) \/
     states m' = (below ++ [top]) ++
          [{| balanceChanges := []; dirtyBalances := dirtyBalances top |}] \/
     (exists n, states m' = take n (states m))).
Proof.
  intros Hstep. destruct (opened_snoc (states m)) as (below & top & E).
  exists below, top. split; [done|].
  destruct op as [a|a v| |id]; cbn [step] in Hstep.
  - left. assert (m' = (GetBalance l m a).2) as -> by congruence.
    rewrite GetBalance_view. cbn [snd]. by rewrite getCurState_states.
  - assert (m' = SetBalance l m a v) as -> by congruence.
    rewrite (SetBalance_states l m a v below top E).
    destruct (Z.eqb_spec (v - view l top a) 0) as [Hz|Hnz]; [by left|].
    right; left. by exists a, v.
  - right; right; left. assert (m' = (Snapshot m).2) as -> by congruence.
    rewrite (Snapshot_spec m below top E). cbn [snd states withStates].
    by rewrite app_assoc.
  - right; right; right. apply RevertToSnapshot_spec in Hstep as [_ ->].
    by eexists.
Qed.

(** X7: no zero delta is ever recorded: in every manager that the overlay
    operations build, each delta of the journal is non-zero, so Commit
    mints or burns for each of them. *)
Theorem journal_has_no_zero_delta l m :
  reachable l m -> Forall (fun c => Delta c <> 0) (journal (states m)).
Proof.
  induction 1 as [|m op m' _ IH Hstep]; [constructor|].
  rewrite <- journal_opened in IH.
  destruct (step_states l op m m' Hstep)
    as (below & top & E & [Hs|[(a & v & Hnz & Hs)|[Hs|(n & Hs)]]]);
    rewrite Hs; rewrite E in IH.
  - done.
  - rewrite journal_app, journal_single in *. cbn [balanceChanges].
    rewrite app_assoc. apply Forall_app. split; [done|]. by constructor.
  - rewrite journal_app, journal_single. simpl. by rewrite app_nil_r.
  - rewrite <- E, journal_opened, (journal_take_drop (states m) n) in IH.
    by apply Forall_app in IH as [IH _].
Qed.

Lemma frames_all_nil holds : frames_all holds [].
Proof. intros i f Hi. by rewrite lookup_nil in Hi. Qed.

Lemma frames_all_snoc holds st f :
  frames_all holds (st ++ [f]) <->
  frames_all holds st /\ holds f (journal (st ++ [f])).
Proof.
  split.
  - intros H. split.
    + intros i g Hi. pose proof (lookup_lt_Some _ _ _ Hi) as Hlt.
      specialize (H i g). rewrite lookup_app_l in H by done.
      rewrite take_app_le in H by lia. by apply H.
    + specialize (H (length st) f).
      rewrite list_lookup_middle in H by done.
      rewrite take_ge in H; [by apply H|]. rewrite length_app. simpl. lia.
  - intros [Hst Hf] i g Hi.
    destruct (decide (i < length st)%nat) as [Hlt|Hge].
    + rewrite lookup_app_l in Hi by done.
      rewrite take_app_le by lia. by apply Hst.
    + rewrite lookup_app_r in Hi by lia.
      destruct (i - length st)%nat eqn:Ei; [|by destruct n].
      simpl in Hi. injection Hi as <-.
      rewrite take_ge; [apply Hf|]. rewrite length_app. simpl. lia.
Qed.

Lemma frames_all_take holds st n :
  frames_all holds st -> frames_all holds (take n st).
Proof.
  intros H i f Hi. apply lookup_take_Some in Hi as [Hi Hlt].
  rewrite take_take. replace (S i `min` n)%nat with (S i) by lia.
  by apply H.
Qed.

(** X8: the dirty map of every frame has an entry for exactly the
    accounts that have a delta recorded in the frames up to and including
    it: GetBalance falls back to the ledger only for accounts the overlay
    never changed. *)
Theorem dirty_map_tracks_journal l m :
  reachable l m -> frames_all dirty_tracks (states m).
Proof.
  induction 1 as [|m op m' _ IH Hstep]; [apply frames_all_nil|].
  assert (IH' : frames_all dirty_tracks (opened (states m))).
  { destruct (states m); [|done].
    apply (frames_all_snoc _ [] emptyState). split; [apply frames_all_nil|].
    intros a. simpl. rewrite lookup_empty. split; [by intros [? ?]|].
    intros Hin. by apply elem_of_nil in Hin. }
  destruct (step_states l op m m' Hstep)
    as (below & top & E & [Hs|[(a & v & Hnz & Hs)|[Hs|(n & Hs)]]]);
    rewrite Hs; rewrite E in IH'.
  - done.
  - apply frames_all_snoc in IH' as [Hbelow Htop].
    apply frames_all_snoc. split; [done|]. intros b.
    rewrite journal_app, journal_single in *. cbn [balanceChanges dirtyBalances].
    rewrite app_assoc, map_app, elem_of_app. simpl.
    rewrite list_elem_of_singleton, <- (Htop b).
    destruct (decide (a = b)) as [->|Hne].
    + rewrite lookup_insert_eq. split; [by right|by eauto].
    + rewrite lookup_insert_ne by done. split; [by left|].
      intros [?|?]; [done|congruence].
  - apply frames_all_snoc. split; [done|].
    apply frames_all_snoc in IH' as [_ Htop]. intros b.
    rewrite journal_app, journal_single. simpl. rewrite app_nil_r.
    exact (Htop b).
  - by apply frames_all_take.
Qed.

End MoreOverlay.

(** * Further properties of [Commit] *)

Section MoreCommit.
Import bank.
Context {L : Type} (K : BankKeeper.t L).

Lemma Commit_Done m l l' m' :
  Commit m l = (Done tt, l', m') ->
  m' = (getCurState m).2 /\
  exists tr,
    performUntilError (concat (map replayOf (journal (states m)))) l
    = (tr, l', None).
Proof.
  intros H. rewrite (Commit_planned K), journal_opened in H.
  destruct (planned (journal (states m))) as [calls stop] eqn:Hplan.
  destruct (performUntilError calls l) as [[tr l0] e] eqn:Hrun.
  remember (getCurState m) as g eqn:Hg.
  injection H as Hout -> <-. subst g.
  apply outcome_Done in Hout as [-> ->].
  destruct (planned_prefix _ _ _ Hplan) as (rest & Hcalls & Hnil).
  rewrite (Hnil eq_refl), app_nil_r in Hcalls.
  split; [done|]. exists tr. by rewrite Hcalls.
Qed.

(** X9: with no delta recorded (a fresh manager, or one whose writes were
    all reverted or were all no-ops) Commit makes no keeper call at all and
    returns nil, leaving the store as it was. *)
Theorem commit_of_empty_journal m l :
  journal (states m) = [] ->
  Commit (K := recording K) m (l, []) = (Done tt, (l, []), (getCurState m).2).
Proof. intros Hj. rewrite Commit_recorded, Hj. done. Qed.

Section Moving.
Context (moduleAddress : string -> list byte) `{!Balanced K moduleAddress}.

Lemma Commit_balance m l l' m' a :
  Commit m l = (Done tt, l', m') ->
  ledgerBalance l' a = ledgerBalance l a + deltaSum a (journal (states m)).
Proof.
  intros H. destruct (Commit_Done m l l' m' H) as (_ & tr & Hrun).
  by apply (replay_balance K moduleAddress _ _ tr).
Qed.

(** X10: on a keeper whose calls move balances, a successful Commit of any
    stack, reachable or not, changes the balance of every account by the
    sum of the deltas recorded for it; an account without a delta, the
    module account included, ends with the balance it had. *)
Theorem commit_net_change m l l' m' :
  Commit m l = (Done tt, l', m') ->
  forall a,
    ledgerBalance l' a = ledgerBalance l a + deltaSum a (journal (states m)) /\
    (a ∉ map Addr (journal (states m)) -> ledgerBalance l' a = ledgerBalance l a).
Proof.
  intros H a. pose proof (Commit_balance m l l' m' a H) as Hbal.
  split; [done|]. intros Hnot. rewrite Hbal.
  assert (Hz : forall cs, a ∉ map Addr cs -> deltaSum a cs = 0).
  { induction cs as [|c cs IH]; [done|]. simpl. intros Hn.
    apply not_elem_of_cons in Hn as [Hne Hn]. fold (deltaSum a cs).
    destruct (decide (Addr c = a)); [congruence|]. by apply IH. }
  rewrite (Hz _ Hnot). lia.
Qed.

(** X11: the overlay is not cleared by Commit, so a second successful
    Commit applies the whole journal again: every account moves by the
    same amount a second time. *)
Theorem commit_twice_moves_twice m l l1 m1 l2 m2 :
  Commit m l = (Done tt, l1, m1) ->
  Commit m1 l1 = (Done tt, l2, m2) ->
  forall a,
    ledgerBalance l2 a - ledgerBalance l1 a =
    ledgerBalance l1 a - ledgerBalance l a.
Proof.
  intros H1 H2 a.
  rewrite (Commit_balance m1 l1 l2 m2 a H2), (Commit_balance m l l1 m1 a H1).
  destruct (Commit_Done m l l1 m1 H1) as (-> & _).
  rewrite getCurState_states, journal_opened. lia.
Qed.

(** X12: for an overlay built over the ledger, a successful Commit does
    not change what GetBalance returns: read through the committed
    overlay against the new ledger, every account shows the balance it
    showed before the Commit. *)
Theorem commit_keeps_reads m l l' m' :
  reachable l m ->
  Commit m l = (Done tt, l', m') ->
  forall a, (GetBalance l' m' a).1 = (GetBalance l m a).1.
Proof.
  intros Hreach H a.
  pose proof (reachable_frames_ok l m Hreach) as Hok.
  pose proof (frames_ok_current K l m a Hok) as Hcur.
  pose proof (Commit_balance m l l' m' a H) as Hbal.
  destruct (Commit_Done m l l' m' H) as (-> & _).
  destruct (opened_snoc (states m)) as (below & top & E).
  rewrite (GetBalance_top l m below top a E) in *.
  rewrite (GetBalance_top l' _ below top a);
    [|by rewrite getCurState_states, opened_idem].
  unfold view in *. destruct (dirtyBalances top !! a); simpl in *; [done|lia].
Qed.

End Moving.

End MoreCommit.

(** * Further properties of the admission pool *)

Section MoreAdmission.
Import mempool.
Context {P : Type} (U : PriorityNonceMempool.t P).

Lemma checkSigners_None signers :
  checkSigners signers = None <->
  Forall (fun signer => BytesToAddress signer <> ReservedAddress) signers.
Proof.
  induction signers as [|signer signers IH]; simpl.
  - split; [constructor|done].
  - rewrite Forall_cons, <- IH. case_bool_decide; intuition congruence.
Qed.

(** X13: checkTxSigner lets a transaction through exactly when it is
    signature-verifiable, its signers can be read, and none of them
    resolves to the reserved address; a transaction without signers
    passes. *)
Theorem checkTxSigner_passes_iff tx :
  checkTxSigner tx = None <->
  sigVerifiable tx = true /\
  (GetSigners tx).2 = None /\
  Forall (fun signer => BytesToAddress signer <> ReservedAddress)
         (GetSigners tx).1.
Proof.
  unfold checkTxSigner. destruct (sigVerifiable tx); simpl; [|intuition congruence].
  destruct (GetSigners tx) as [signers [e|]]; simpl.
  - unfold errorslib.Wrap. intuition congruence.
  - rewrite checkSigners_None. intuition congruence.
Qed.

(** X14: an Insert that returns an error, at the signer check, from the
    priority pool or for a stale nonce, leaves the Tx Cache and the Nonce
    Index exactly as they were. *)
Theorem rejected_insert_keeps_bookkeeping (etp : EthTxPool P) tx err :
  (Insert etp tx).2 = Some err ->
  ethTxCache (Insert etp tx).1 = ethTxCache etp /\
  nonceToHash (Insert etp tx).1 = nonceToHash etp.
Proof.
  unfold Insert.
  destruct (checkTxSigner tx) as [e0|]; [done|].
  destruct (PriorityNonceMempool.Insert tx (pool etp)) as [p [e1|]]; [done|].
  destruct (GetAsEthTx tx) as [ethTx|]; [|done].
  cbn [nr withPool pool].
  destruct (Nonce ethTx <? nr etp (GetSender ethTx))%N; [|done].
  by destruct (PriorityNonceMempool.Remove tx p) as [p' e2].
Qed.

(** X15: a transaction that does not decode as an execution-engine
    transaction never changes the Tx Cache or the Nonce Index, neither
    through Insert nor through Remove, whatever the priority pool
    answers. *)
Theorem other_transactions_bypass_bookkeeping (etp : EthTxPool P) tx :
  GetAsEthTx tx = None ->
  (ethTxCache (Insert etp tx).1 = ethTxCache etp /\
   nonceToHash (Insert etp tx).1 = nonceToHash etp) /\
  (ethTxCache (Remove etp tx).1 = ethTxCache etp /\
   nonceToHash (Remove etp tx).1 = nonceToHash etp).
Proof.
  intros Hno. unfold Insert, Remove. rewrite Hno. split.
  - destruct (checkTxSigner tx) as [e0|]; [done|].
    by destruct (PriorityNonceMempool.Insert tx (pool etp)) as [p [e1|]].
  - by destruct (PriorityNonceMempool.Remove tx (pool etp)) as [p [e1|]].
Qed.

(** What an admitting [Insert] leaves in the cache and the index. *)
Lemma Insert_result (etp : EthTxPool P) tx ethTx :
  GetAsEthTx tx = Some ethTx ->
  (Insert etp tx).2 = None ->
  (forall h, cached (Insert etp tx).1 h =
     if decide (h = Hash ethTx) then Some ethTx
     else if decide (evicted etp ethTx = Some h) then None
     else cached etp h) /\
  (forall a n, indexed (Insert etp tx).1 a n =
     if decide ((a, n) = (GetSender ethTx, Nonce ethTx))
     then Some (Hash ethTx) else indexed etp a n).
Proof.
  intros Heth. unfold Insert.
  destruct (checkTxSigner tx) as [e0|]; [done|].
  destruct (PriorityNonceMempool.Insert tx (pool etp)) as [p [e1|]]; [done|].
  rewrite Heth. cbn [nr withPool nonceToHash ethTxCache pool].
  destruct (Nonce ethTx <? nr etp (GetSender ethTx))%N.
  { by destruct (PriorityNonceMempool.Remove tx p) as [p' e2]. }
  intros _. unfold indexed, cached, evicted. cbn [nonceToHash ethTxCache fst].
  split.
  - intros h. destruct (decide (h = Hash ethTx)) as [->|Hne];
      [apply lookup_insert_eq|].
    rewrite lookup_insert_ne by done.
    destruct (nonceToHash etp !! GetSender ethTx) as [byNonce|]; simpl.
    + destruct (decide (Some (default 0%N (byNonce !! Nonce ethTx)) = Some h))
        as [Heq|Hneq].
      * injection Heq as ->. apply lookup_delete_eq.
      * rewrite lookup_delete_ne; [done|congruence].
    + by destruct (decide (None = Some h)).
  - intros a n.
    destruct (decide ((a, n) = (GetSender ethTx, Nonce ethTx))) as [Heq|Hne].
    + injection Heq as -> ->. rewrite lookup_insert_eq. simpl.
      apply lookup_insert_eq.
    + destruct (decide (a = GetSender ethTx)) as [->|Ha].
      * rewrite lookup_insert_eq. simpl.
        rewrite lookup_insert_ne by congruence.
        destruct (nonceToHash etp !! GetSender ethTx) as [byNonce|] eqn:Hidx;
          simpl.
        -- by rewrite Hidx.
        -- by rewrite lookup_insert_eq.
      * rewrite lookup_insert_ne by done.
        destruct (nonceToHash etp !! GetSender ethTx) as [byNonce|]; [done|].
        by rewrite lookup_insert_ne.
Qed.

(** What a successful [Remove] leaves in the cache and the index. *)
Lemma Remove_result (etp : EthTxPool P) tx ethTx :
  GetAsEthTx tx = Some ethTx ->
  (Remove etp tx).2 = None ->
  (forall h, cached (Remove etp tx).1 h =
     if decide (h = Hash ethTx) then None else cached etp h) /\
  (forall a n, indexed (Remove etp tx).1 a n =
     if decide ((a, n) = (GetSender ethTx, Nonce ethTx))
     then None else indexed etp a n).
Proof.
  intros Heth. unfold Remove.
  destruct (PriorityNonceMempool.Remove tx (pool etp)) as [p [e1|]]; [done|].
  rewrite Heth. intros _. unfold cached, indexed.
  cbn [fst ethTxCache nonceToHash withPool]. split.
  - intros h. destruct (decide (h = Hash ethTx)) as [->|Hne].
    + apply lookup_delete_eq.
    + by rewrite lookup_delete_ne.
  - intros a n.
    destruct (decide ((a, n) = (GetSender ethTx, Nonce ethTx))) as [Heq|Hne].
    + injection Heq as -> ->. rewrite lookup_alter_eq.
      destruct (nonceToHash etp !! GetSender ethTx) as [byNonce|]; [|done].
      simpl. apply lookup_delete_eq.
    + destruct (decide (a = GetSender ethTx)) as [->|Ha].
      * rewrite lookup_alter_eq.
        destruct (nonceToHash etp !! GetSender ethTx) as [byNonce|]; [|done].
        simpl. apply lookup_delete_ne. congruence.
      * by rewrite lookup_alter_ne.
Qed.

(** X16: an execution-engine transaction that passes the signer check and
    the priority pool, with a nonce at or above GetNonce(sender) (equal
    counts as fresh), is admitted: Insert returns nil, the priority pool is
    left as its own Insert left it (Remove is not called), and the
    transaction can be looked up by its hash and by (sender, nonce). *)
Theorem insert_admits_fresh (etp : EthTxPool P) tx ethTx p :
  checkTxSigner tx = None ->
  PriorityNonceMempool.Insert tx (pool etp) = (p, None) ->
  GetAsEthTx tx = Some ethTx ->
  (nr etp (GetSender ethTx) <= Nonce ethTx)%N ->
  (Insert etp tx).2 = None /\
  pool (Insert etp tx).1 = p /\
  cached (Insert etp tx).1 (Hash ethTx) = Some ethTx /\
  indexed (Insert etp tx).1 (GetSender ethTx) (Nonce ethTx) = Some (Hash ethTx).
Proof.
  intros Hsig Hpool Heth Hfresh.
  assert (Hres : (Insert etp tx).2 = None /\ pool (Insert etp tx).1 = p).
  { unfold Insert. rewrite Hsig, Hpool, Heth. cbn [nr withPool pool].
    apply N.ltb_ge in Hfresh. by rewrite Hfresh. }
  destruct Hres as [Hnil Hp]. split; [done|]. split; [done|].
  destruct (Insert_result etp tx ethTx Heth Hnil) as [Hc Hi].
  rewrite Hc, Hi. split; by case_decide.
Qed.

(** X17: an admitting Insert touches nothing else: every Nonce Index entry
    of another (sender, nonce) pair is as before, and so is every Tx Cache
    entry other than the new hash and the one hash that Insert evicts. *)
Theorem insert_touches_nothing_else (etp : EthTxPool P) tx ethTx :
  GetAsEthTx tx = Some ethTx ->
  (Insert etp tx).2 = None ->
  (forall a n, (a, n) <> (GetSender ethTx, Nonce ethTx) ->
     indexed (Insert etp tx).1 a n = indexed etp a n) /\
  (forall h, h <> Hash ethTx -> evicted etp ethTx <> Some h ->
     cached (Insert etp tx).1 h = cached etp h).
Proof.
  intros Heth Hnil.
  destruct (Insert_result etp tx ethTx Heth Hnil) as [Hc Hi]. split.
  - intros a n Hne. rewrite Hi. by case_decide.
  - intros h Hne Hev. rewrite Hc. by repeat case_decide.
Qed.

(** X18: when the sender already has Nonce Index entries but none for the
    nonce of the transaction, the lookup of the old hash reads the zero
    hash, and an admitting Insert deletes whatever the Tx Cache holds
    under the zero hash. *)
Theorem insert_evicts_zero_hash (etp : EthTxPool P) tx ethTx byNonce :
  GetAsEthTx tx = Some ethTx ->
  (Insert etp tx).2 = None ->
  nonceToHash etp !! GetSender ethTx = Some byNonce ->
  byNonce !! Nonce ethTx = None ->
  Hash ethTx <> 0%N ->
  cached (Insert etp tx).1 0%N = None.
Proof.
  intros Heth Hnil Hidx Hnone Hnz.
  destruct (Insert_result etp tx ethTx Heth Hnil) as [Hc _].
  rewrite Hc. destruct (decide (0%N = Hash ethTx)); [done|].
  unfold evicted. rewrite Hidx. simpl. rewrite Hnone. simpl.
  by destruct (decide (Some 0%N = Some 0%N)).
Qed.

(** X19: Insert and then Remove of the same admitted transaction, both
    successful: the transaction is in neither the Tx Cache nor the Nonce
    Index, and every other Nonce Index entry is as it was before the
    Insert. *)
Theorem insert_then_remove (etp : EthTxPool P) tx ethTx :
  GetAsEthTx tx = Some ethTx ->
  (Insert etp tx).2 = None ->
  (Remove (Insert etp tx).1 tx).2 = None ->
  cached (Remove (Insert etp tx).1 tx).1 (Hash ethTx) = None /\
  forall a n,
    indexed (Remove (Insert etp tx).1 tx).1 a n =
    if decide ((a, n) = (GetSender ethTx, Nonce ethTx)) then None
    else indexed etp a n.
Proof.
  intros Heth Hins Hrem.
  destruct (Insert_result etp tx ethTx Heth Hins) as [_ Hi].
  destruct (Remove_result _ tx ethTx Heth Hrem) as [Hc' Hi']. split.
  - rewrite Hc'. by case_decide.
  - intros a n. rewrite Hi', Hi. by repeat case_decide.
Qed.

(** X20: Remove of a superseded transaction. After a newer transaction
    with the same sender and nonce but another hash was admitted, a
    successful Remove of the older one deletes the Nonce Index entry,
    which by then points at the newer hash, while the newer transaction
    stays in the Tx Cache: the cache then holds a transaction that the
    index no longer leads to. *)
Theorem remove_of_superseded (etp : EthTxPool P) older newer ethOld ethNew :
  GetAsEthTx older = Some ethOld ->
  GetAsEthTx newer = Some ethNew ->
  GetSender ethOld = GetSender ethNew ->
  Nonce ethOld = Nonce ethNew ->
  Hash ethOld <> Hash ethNew ->
  (Insert etp newer).2 = None ->
  (Remove (Insert etp newer).1 older).2 = None ->
  indexed (Insert etp newer).1 (GetSender ethNew) (Nonce ethNew)
    = Some (Hash ethNew) /\
  indexed (Remove (Insert etp newer).1 older).1 (GetSender ethNew) (Nonce ethNew)
    = None /\
  cached (Remove (Insert etp newer).1 older).1 (Hash ethNew) = Some ethNew.
Proof.
  intros Hold Hnew Hs Hn Hh Hins Hrem.
  destruct (Insert_result etp newer ethNew Hnew Hins) as [Hc Hi].
  destruct (Remove_result _ older ethOld Hold Hrem) as [Hc' Hi'].
  rewrite Hi', Hc', Hc, Hi, Hs, Hn.
  destruct (decide ((GetSender ethNew, Nonce ethNew)
                    = (GetSender ethNew, Nonce ethNew))); [|done].
  destruct (decide (Hash ethNew = Hash ethOld)); [congruence|].
  by destruct (decide (Hash ethNew = Hash ethNew)).
Qed.

End MoreAdmission.

(** * Further examples, checked *)

Section MoreChecked.
Import bank mempool examples.

Lemma commit_shape {L : Type} (r : Result unit * L * Manager) out :
  r.1.1 = out -> r = (out, r.1.2, r.2).
Proof. destruct r as [[r l] m]. simpl. by intros ->. Qed.

Lemma set_keeps_other_accounts_witness :
  bob <> alice /\
  (GetBalance ledger0 (SetBalance ledger0 raised alice 0) bob).1
  = (GetBalance ledger0 raised bob).1.
Proof.
  assert (H : bob <> alice) by (vm_compute; discriminate).
  split; [exact H|].
  exact (set_keeps_other_accounts ledger0 raised alice 0 bob H).
Defined.

Lemma journal_has_no_zero_delta_witness :
  reachable ledger0 settled /\
  Forall (fun c => Delta c <> 0) (journal (states settled)).
Proof.
  split; [exact settled_reachable|].
  exact (journal_has_no_zero_delta ledger0 settled settled_reachable).
Defined.

Lemma dirty_map_tracks_journal_witness :
  reachable ledger0 settled /\ frames_all dirty_tracks (states settled).
Proof.
  split; [exact settled_reachable|].
  exact (dirty_map_tracks_journal ledger0 settled settled_reachable).
Defined.

Lemma commit_of_empty_journal_witness :
  journal (states NewManager) = [] /\
  Commit (K := recording simple.keeper) NewManager (ledger0, [])
  = (Done tt, (ledger0, []), (getCurState NewManager).2).
Proof.
  assert (H : journal (states NewManager) = []) by reflexivity.
  split; [exact H|].
  exact (commit_of_empty_journal simple.keeper NewManager ledger0 H).
Defined.

Lemma commit_net_change_witness :
  Balanced simple.keeper simple.moduleAddress /\
  settledPlain = (Done tt, settledPlain.1.2, settledPlain.2) /\
  forall a,
    ledgerBalance settledPlain.1.2 a
    = ledgerBalance ledger0 a + deltaSum a (journal (states settled)) /\
    (a ∉ map Addr (journal (states settled)) ->
     ledgerBalance settledPlain.1.2 a = ledgerBalance ledger0 a).
Proof.
  assert (H : settledPlain = (Done tt, settledPlain.1.2, settledPlain.2)).
  { apply commit_shape. vm_compute. reflexivity. }
  split; [exact simple_balanced|]. split; [exact H|].
  exact (commit_net_change simple.keeper simple.moduleAddress
           settled ledger0 _ _ H).
Defined.

Lemma commit_twice_moves_twice_witness :
  Balanced simple.keeper simple.moduleAddress /\
  savingRun = (Done tt, savingRun.1.2, savingRun.2) /\
  savingAgain = (Done tt, savingAgain.1.2, savingAgain.2) /\
  forall a,
    ledgerBalance savingAgain.1.2 a - ledgerBalance savingRun.1.2 a
    = ledgerBalance savingRun.1.2 a - ledgerBalance ledger0 a.
Proof.
  assert (H1 : savingRun = (Done tt, savingRun.1.2, savingRun.2)).
  { apply commit_shape. vm_compute. reflexivity. }
  assert (H2 : savingAgain = (Done tt, savingAgain.1.2, savingAgain.2)).
  { apply commit_shape. vm_compute. reflexivity. }
  split; [exact simple_balanced|]. split; [exact H1|]. split; [exact H2|].
  exact (commit_twice_moves_twice simple.keeper simple.moduleAddress
           saving ledger0 _ _ _ _ H1 H2).
Defined.

(** [alice] goes from 100 to 60 and then to 20. *)
Example saving_twice :
  ledgerBalance savingRun.1.2 alice = 60 /\
  ledgerBalance savingAgain.1.2 alice = 20.
Proof. vm_compute. split; reflexivity. Qed.

Lemma commit_keeps_reads_witness :
  Balanced simple.keeper simple.moduleAddress /\
  reachable ledger0 settled /\
  settledPlain = (Done tt, settledPlain.1.2, settledPlain.2) /\
  forall a,
    (GetBalance settledPlain.1.2 settledPlain.2 a).1
    = (GetBalance ledger0 settled a).1.
Proof.
  assert (H : settledPlain = (Done tt, settledPlain.1.2, settledPlain.2)).
  { apply commit_shape. vm_compute. reflexivity. }
  split; [exact simple_balanced|]. split; [exact settled_reachable|].
  split; [exact H|].
  exact (commit_keeps_reads simple.keeper simple.moduleAddress
           settled ledger0 _ _ settled_reachable H).
Defined.

Lemma rejected_insert_keeps_bookkeeping_witness :
  (Insert (U := scripted false false) holding5 (signedBy alice ethTx4)).2
  = Some (wrapError "nonce too low" None) /\
  ethTxCache (Insert (U := scripted false false) holding5 (signedBy alice ethTx4)).1
  = ethTxCache holding5 /\
  nonceToHash (Insert (U := scripted false false) holding5 (signedBy alice ethTx4)).1
  = nonceToHash holding5.
Proof.
  assert (H : (Insert (U := scripted false false) holding5
                 (signedBy alice ethTx4)).2
              = Some (wrapError "nonce too low" None)).
  { vm_compute. reflexivity. }
  split; [exact H|].
  exact (rejected_insert_keeps_bookkeeping (scripted false false) holding5
           (signedBy alice ethTx4) _ H).
Defined.

Lemma other_transactions_bypass_bookkeeping_witness :
  GetAsEthTx otherTx = None /\
  (ethTxCache (Insert (U := scripted false false) holding5 otherTx).1
   = ethTxCache holding5 /\
   nonceToHash (Insert (U := scripted false false) holding5 otherTx).1
   = nonceToHash holding5) /\
  (ethTxCache (Remove (U := scripted false false) holding5 otherTx).1
   = ethTxCache holding5 /\
   nonceToHash (Remove (U := scripted false false) holding5 otherTx).1
   = nonceToHash holding5).
Proof.
  assert (H : GetAsEthTx otherTx = None) by reflexivity.
  split; [exact H|].
  exact (other_transactions_bypass_bookkeeping (scripted false false)
           holding5 otherTx H).
Defined.

Lemma insert_admits_fresh_witness :
  checkTxSigner (signedBy alice ethTx5) = None /\
  PriorityNonceMempool.Insert (t := scripted false false)
    (signedBy alice ethTx5) (pool emptyPool)
  = ([PoolInsert (signedBy alice ethTx5)], None) /\
  GetAsEthTx (signedBy alice ethTx5) = Some ethTx5 /\
  (nr emptyPool (GetSender ethTx5) <= Nonce ethTx5)%N /\
  (Insert (U := scripted false false) emptyPool (signedBy alice ethTx5)).2 = None /\
  pool (Insert (U := scripted false false) emptyPool (signedBy alice ethTx5)).1
  = [PoolInsert (signedBy alice ethTx5)] /\
  cached (Insert (U := scripted false false) emptyPool (signedBy alice ethTx5)).1
         (Hash ethTx5) = Some ethTx5 /\
  indexed (Insert (U := scripted false false) emptyPool (signedBy alice ethTx5)).1
          (GetSender ethTx5) (Nonce ethTx5) = Some (Hash ethTx5).
Proof.
  assert (H1 : checkTxSigner (signedBy alice ethTx5) = None).
  { vm_compute. reflexivity. }
  assert (H2 : PriorityNonceMempool.Insert (t := scripted false false)
                 (signedBy alice ethTx5) (pool emptyPool)
               = ([PoolInsert (signedBy alice ethTx5)], None)) by reflexivity.
  assert (H3 : GetAsEthTx (signedBy alice ethTx5) = Some ethTx5) by reflexivity.
  assert (H4 : (nr emptyPool (GetSender ethTx5) <= Nonce ethTx5)%N).
  { vm_compute. discriminate. }
  split; [exact H1|]. split; [exact H2|]. split; [exact H3|]. split; [exact H4|].
  exact (insert_admits_fresh (scripted false false) emptyPool
           (signedBy alice ethTx5) ethTx5 _ H1 H2 H3 H4).
Defined.

Lemma insert_touches_nothing_else_witness :
  GetAsEthTx (signedBy alice ethTx5') = Some ethTx5' /\
  (Insert (U := scripted false false) withZero (signedBy alice ethTx5')).2 = None /\
  indexed (Insert (U := scripted false false) withZero (signedBy alice ethTx5')).1
          bob 9%N = indexed withZero bob 9%N /\
  cached (Insert (U := scripted false false) withZero (signedBy alice ethTx5')).1
         0%N = cached withZero 0%N.
Proof.
  assert (H1 : GetAsEthTx (signedBy alice ethTx5') = Some ethTx5') by reflexivity.
  assert (H2 : (Insert (U := scripted false false) withZero
                  (signedBy alice ethTx5')).2 = None).
  { vm_compute. reflexivity. }
  split; [exact H1|]. split; [exact H2|].
  destruct (insert_touches_nothing_else (scripted false false) withZero
              (signedBy alice ethTx5') ethTx5' H1 H2) as [Hi Hc].
  split.
  - apply Hi. vm_compute. discriminate.
  - apply Hc; vm_compute; discriminate.
Defined.

Lemma insert_evicts_zero_hash_witness :
  GetAsEthTx (signedBy alice ethTx7) = Some ethTx7 /\
  (Insert (U := scripted false false) withZero (signedBy alice ethTx7)).2 = None /\
  nonceToHash withZero !! GetSender ethTx7 = Some {[ 5%N := 17%N ]} /\
  ({[ 5%N := 17%N ]} : gmap N N) !! Nonce ethTx7 = None /\
  Hash ethTx7 <> 0%N /\
  cached withZero 0%N = Some ethTx0 /\
  cached (Insert (U := scripted false false) withZero (signedBy alice ethTx7)).1
         0%N = None.
Proof.
  assert (H1 : GetAsEthTx (signedBy alice ethTx7) = Some ethTx7) by reflexivity.
  assert (H2 : (Insert (U := scripted false false) withZero
                  (signedBy alice ethTx7)).2 = None).
  { vm_compute. reflexivity. }
  assert (H3 : nonceToHash withZero !! GetSender ethTx7 = Some {[ 5%N := 17%N ]}).
  { vm_compute. reflexivity. }
  assert (H4 : ({[ 5%N := 17%N ]} : gmap N N) !! Nonce ethTx7 = None).
  { vm_compute. reflexivity. }
  assert (H5 : Hash ethTx7 <> 0%N) by (vm_compute; discriminate).
  split; [exact H1|]. split; [exact H2|]. split; [exact H3|]. split; [exact H4|].
  split; [exact H5|]. split; [vm_compute; reflexivity|].
  exact (insert_evicts_zero_hash (scripted false false) withZero
           (signedBy alice ethTx7) ethTx7 _ H1 H2 H3 H4 H5).
Defined.

Lemma insert_then_remove_witness :
  GetAsEthTx (signedBy alice ethTx7) = Some ethTx7 /\
  (Insert (U := scripted false false) holding5 (signedBy alice ethTx7)).2 = None /\
  (Remove (U := scripted false false)
     (Insert (U := scripted false false) holding5 (signedBy alice ethTx7)).1
     (signedBy alice ethTx7)).2 = None /\
  cached (Remove (U := scripted false false)
            (Insert (U := scripted false false) holding5 (signedBy alice ethTx7)).1
            (signedBy alice ethTx7)).1 (Hash ethTx7) = None /\
  forall a n,
    indexed (Remove (U := scripted false false)
               (Insert (U := scripted false false) holding5 (signedBy alice ethTx7)).1
               (signedBy alice ethTx7)).1 a n =
    if decide ((a, n) = (GetSender ethTx7, Nonce ethTx7)) then None
    else indexed holding5 a n.
Proof.
  assert (H1 : GetAsEthTx (signedBy alice ethTx7) = Some ethTx7) by reflexivity.
  assert (H2 : (Insert (U := scripted false false) holding5
                  (signedBy alice ethTx7)).2 = None).
  { vm_compute. reflexivity. }
  assert (H3 : (Remove (U := scripted false false)
                  (Insert (U := scripted false false) holding5
                     (signedBy alice ethTx7)).1
                  (signedBy alice ethTx7)).2 = None).
  { vm_compute. reflexivity. }
  split; [exact H1|]. split; [exact H2|]. split; [exact H3|].
  exact (insert_then_remove (scripted false false) holding5
           (signedBy alice ethTx7) ethTx7 H1 H2 H3).
Defined.

Lemma remove_of_superseded_witness :
  GetAsEthTx (signedBy alice ethTx5) = Some ethTx5 /\
  GetAsEthTx (signedBy alice ethTx5') = Some ethTx5' /\
  GetSender ethTx5 = GetSender ethTx5' /\
  Nonce ethTx5 = Nonce ethTx5' /\
  Hash ethTx5 <> Hash ethTx5' /\
  (Insert (U := scripted false false) holding5 (signedBy alice ethTx5')).2 = None /\
  (Remove (U := scripted false false)
     (Insert (U := scripted false false) holding5 (signedBy alice ethTx5')).1
     (signedBy alice ethTx5)).2 = None /\
  (indexed (Insert (U := scripted false false) holding5 (signedBy alice ethTx5')).1
           (GetSender ethTx5') (Nonce ethTx5') = Some (Hash ethTx5') /\
   indexed (Remove (U := scripted false false)
              (Insert (U := scripted false false) holding5 (signedBy alice ethTx5')).1
              (signedBy alice ethTx5)).1 (GetSender ethTx5') (Nonce ethTx5') = None /\
   cached (Remove (U := scripted false false)
             (Insert (U := scripted false false) holding5 (signedBy alice ethTx5')).1
             (signedBy alice ethTx5)).1 (Hash ethTx5') = Some ethTx5').
Proof.
  assert (H1 : GetAsEthTx (signedBy alice ethTx5) = Some ethTx5) by reflexivity.
  assert (H2 : GetAsEthTx (signedBy alice ethTx5') = Some ethTx5') by reflexivity.
  assert (H3 : GetSender ethTx5 = GetSender ethTx5') by reflexivity.
  assert (H4 : Nonce ethTx5 = Nonce ethTx5') by reflexivity.
  assert (H5 : Hash ethTx5 <> Hash ethTx5') by (vm_compute; discriminate).
  assert (H6 : (Insert (U := scripted false false) holding5
                  (signedBy alice ethTx5')).2 = None).
  { vm_compute. reflexivity. }
  assert (H7 : (Remove (U := scripted false false)
                  (Insert (U := scripted false false) holding5
                     (signedBy alice ethTx5')).1
                  (signedBy alice ethTx5)).2 = None).
  { vm_compute. reflexivity. }
  split; [exact H1|]. split; [exact H2|]. split; [exact H3|]. split; [exact H4|].
  split; [exact H5|]. split; [exact H6|]. split; [exact H7|].
  exact (remove_of_superseded (scripted false false) holding5
           (signedBy alice ethTx5) (signedBy alice ethTx5') ethTx5 ethTx5'
           H1 H2 H3 H4 H5 H6 H7).
Defined.

End MoreChecked.

(** * Grants and the highest allowance *)

Section Allowances.
Import cosmlib precompile_bank.
Context {Any : Type} (asSendAuth : Any -> option SendAuthorization).
Context (ErrInvalidGrantType : Error).
Context (AmountOf : list bank.Coin -> string -> option Z).

Lemma collectSendAuths_spec (grants : list Grant) blocktime sendAuths :
  collectSendAuths asSendAuth ErrInvalidGrantType grants blocktime sendAuths =
  if forallb (castable asSendAuth) (List.filter (unexpired blocktime) grants)
  then (sendAuths ++
          omap (fun grant => asSendAuth (Authorization grant))
               (List.filter (unexpired blocktime) grants), None)
  else ([], Some ErrInvalidGrantType).
Proof.
  revert sendAuths. induction grants as [|grant grants IH]; intros sendAuths.
  - simpl. by rewrite app_nil_r.
  - cbn [collectSendAuths List.filter].
    assert (Hlive : match Expiration grant with
                    | Some expiration => After expiration blocktime
                    | None => true
                    end = unexpired blocktime grant) by done.
    rewrite Hlive. destruct (unexpired blocktime grant); [|apply IH].
    cbn [forallb omap]. unfold castable at 1.
    destruct (asSendAuth (Authorization grant)) as [sendAuth|] eqn:Hcast;
      [|done].
    rewrite IH. simpl. rewrite Hcast.
    destruct (forallb (castable asSendAuth)
                (List.filter (unexpired blocktime) grants)); [|done].
    by rewrite <- app_assoc.
Qed.

(** X21: GetGrantAsSendAuth looks at the unexpired grants only, those
    without expiration or expiring strictly after the block time: when
    each of them holds a send authorization it returns these, in order,
    and no error; when one of them holds something else it returns
    ErrInvalidGrantType and no authorization.  What an expired grant holds
    never matters. *)
Theorem GetGrantAsSendAuth_unexpired (grants : list Grant) blocktime :
  GetGrantAsSendAuth asSendAuth ErrInvalidGrantType grants blocktime =
  if forallb (castable asSendAuth) (List.filter (unexpired blocktime) grants)
  then (omap (fun grant => asSendAuth (Authorization grant))
             (List.filter (unexpired blocktime) grants), None)
  else ([], Some ErrInvalidGrantType).
Proof. apply (collectSendAuths_spec grants blocktime []). Qed.

Lemma highestFrom_Some max sendAuths denom r :
  highestFrom AmountOf max sendAuths denom = Some r ->
  max <= r /\
  (forall sendAuth x, sendAuth ∈ sendAuths ->
     AmountOf (SpendLimit sendAuth) denom = Some x -> x <= r) /\
  (r = max \/
   exists sendAuth, sendAuth ∈ sendAuths /\
     AmountOf (SpendLimit sendAuth) denom = Some r).
Proof.
  revert max. induction sendAuths as [|sendAuth sendAuths IH]; intros max H.
  - simpl in H. injection H as <-. split; [lia|]. split; [|by left].
    intros sa x Hin. by apply elem_of_nil in Hin.
  - simpl in H.
    destruct (AmountOf (SpendLimit sendAuth) denom) as [amount|] eqn:Ha;
      [|done].
    simpl in H. destruct (IH _ H) as (Hle & Hall & Hex).
    split; [destruct (Z.ltb_spec max amount); lia|]. split.
    + intros sa x Hin Hx. apply elem_of_cons in Hin as [->|Hin].
      * rewrite Ha in Hx. injection Hx as <-.
        destruct (Z.ltb_spec max amount); lia.
      * by apply (Hall sa).
    + destruct Hex as [->|(sa & Hin & Hsa)].
      * destruct (Z.ltb_spec max amount); [right|by left].
        exists sendAuth. split; [apply list_elem_of_here|done].
      * right. exists sa. split; [by apply list_elem_of_further|done].
Qed.

Lemma highestFrom_None max sendAuths denom :
  highestFrom AmountOf max sendAuths denom = None ->
  exists sendAuth, sendAuth ∈ sendAuths /\
    AmountOf (SpendLimit sendAuth) denom = None.
Proof.
  revert max. induction sendAuths as [|sendAuth sendAuths IH]; intros max H;
    [done|].
  simpl in H.
  destruct (AmountOf (SpendLimit sendAuth) denom) as [amount|] eqn:Ha.
  - simpl in H. destruct (IH _ H) as (sa & Hin & Hsa).
    exists sa. split; [by apply list_elem_of_further|done].
  - exists sendAuth. split; [apply list_elem_of_here|done].
Qed.

(** X22: getHighestAllowance returns the largest spend limit of the
    denomination among the authorizations, and zero when there is none or
    none above zero: the result is never negative, no limit exceeds it,
    and it is zero or the limit of one of them.  It panics only when
    AmountOf does for one of them. *)
Theorem getHighestAllowance_is_highest sendAuths denom :
  match getHighestAllowance AmountOf sendAuths denom with
  | Some r =>
      0 <= r /\
      (forall sendAuth x, sendAuth ∈ sendAuths ->
         AmountOf (SpendLimit sendAuth) denom = Some x -> x <= r) /\
      (r = 0 \/
       exists sendAuth, sendAuth ∈ sendAuths /\
         AmountOf (SpendLimit sendAuth) denom = Some r)
  | None =>
      exists sendAuth, sendAuth ∈ sendAuths /\
        AmountOf (SpendLimit sendAuth) denom = None
  end.
Proof.
  unfold getHighestAllowance.
  destruct (highestFrom AmountOf 0 sendAuths denom) as [r|] eqn:H.
  - by apply highestFrom_Some.
  - by apply (highestFrom_None 0).
Qed.

(** X23: the two steps of Allowance together: the highest allowance over
    the authorizations that GetGrantAsSendAuth returns is zero or the
    spend limit of a grant that is unexpired at the block time; the limit
    of an expired grant never counts. *)
Theorem allowance_from_unexpired_grant (grants : list Grant) blocktime
    sendAuths denom r :
  GetGrantAsSendAuth asSendAuth ErrInvalidGrantType grants blocktime
    = (sendAuths, None) ->
  getHighestAllowance AmountOf sendAuths denom = Some r ->
  r = 0 \/
  exists grant sendAuth,
    grant ∈ grants /\ unexpired blocktime grant = true /\
    asSendAuth (Authorization grant) = Some sendAuth /\
    AmountOf (SpendLimit sendAuth) denom = Some r.
Proof.
  intros Hg Hh. unfold GetGrantAsSendAuth in Hg.
  rewrite collectSendAuths_spec in Hg.
  destruct (forallb (castable asSendAuth) (List.filter (unexpired blocktime) grants));
    [|done].
  injection Hg as <-.
  destruct (highestFrom_Some 0 _ denom r Hh) as (_ & _ & [->|(sa & Hin & Hsa)]);
    [by left|].
  right. apply list_elem_of_omap in Hin as (grant & Hgin & Hcast).
  apply list_elem_of_In, filter_In in Hgin as [Hgin Hlive].
  exists grant, sa. by rewrite list_elem_of_In.
Qed.

End Allowances.

Section AllowanceChecked.
Import bank cosmlib precompile_bank examples.

(** At block time 10 the grant expiring at 10 is expired, and so is the
    one that is no send authorization: the limits left are 30 and 50. *)
Example grants_at_10 :
  GetGrantAsSendAuth id (externalError 3) grants 10
  = ([limit 30; limit 50], None) /\
  getHighestAllowance amountOf [limit 30; limit 50] underlyingDenom = Some 50 /\
  GetGrantAsSendAuth id (externalError 3) grants 4
  = ([], Some (externalError 3)).
Proof. vm_compute. repeat split; reflexivity. Qed.

Lemma allowance_from_unexpired_grant_witness :
  GetGrantAsSendAuth id (externalError 3) grants 10
  = ([limit 30; limit 50], None) /\
  getHighestAllowance amountOf [limit 30; limit 50] underlyingDenom = Some 50 /\
  (50 = 0 \/
   exists grant sendAuth,
     grant ∈ grants /\ unexpired 10 grant = true /\
     id (Authorization grant) = Some sendAuth /\
     amountOf (SpendLimit sendAuth) underlyingDenom = Some 50).
Proof.
  assert (H1 : GetGrantAsSendAuth id (externalError 3) grants 10
               = ([limit 30; limit 50], None)).
  { vm_compute. reflexivity. }
  assert (H2 : getHighestAllowance amountOf [limit 30; limit 50] underlyingDenom
               = Some 50).
  { vm_compute. reflexivity. }
  split; [exact H1|]. split; [exact H2|].
  exact (allowance_from_unexpired_grant id (externalError 3) amountOf
           grants 10 [limit 30; limit 50] underlyingDenom 50 H1 H2).
Defined.

End AllowanceChecked.

(** * Writes stay in the top frame *)

Section TopFrame.
Import bank examples.
Context {L : Type} `{K : BankKeeper.t L}.

(** X24: GetBalance, SetBalance and Snapshot always return, never make
    the stack lower, and leave every frame below the top one exactly as it
    was: only RevertToSnapshot removes frames, and writes land in the top
    frame alone. *)
Theorem writes_stay_in_top_frame l op m :
  not_revert op = true ->
  exists m',
    step l op m = Some m' /\
    stack.Size (states m) <= stack.Size (states m') /\
    forall i, 0 <= i < stack.Size (states m) - 1 ->
      stack.PeekAt i (states m') = stack.PeekAt i (states m).
Proof.
  intros Hop. destruct (states m) as [|f st] eqn:Es.
  - assert (Hsome : exists m', step l op m = Some m').
    { destruct op; [eauto|eauto|eauto|done]. }
    destruct Hsome as (m' & Hstep). exists m'. split; [done|].
    unfold stack.Size. simpl. split; [lia|]. intros i Hi. lia.
  - destruct (exists_last (l := f :: st)) as (lower & top & Hlast); [done|].
    rewrite Hlast in *.
    destruct (step_keeps_lower_frames l op m lower [top] Hop Es)
      as (m' & upper & Hstep & Hst & Hne); [done|].
    exists m'. split; [done|]. rewrite Hst. unfold stack.Size, stack.PeekAt.
    rewrite !length_app. simpl. split.
    + destruct upper; [done|]. simpl. lia.
    + intros i Hi. destruct (Z.leb_spec 0 i); [|lia].
      rewrite !lookup_app_l by lia. done.
Qed.

End TopFrame.

Section TopFrameChecked.
Import bank examples.

Lemma writes_stay_in_top_frame_witness :
  not_revert (OpSetBalance alice 7) = true /\
  exists m',
    step ledger0 (OpSetBalance alice 7) twoFrames = Some m' /\
    stack.Size (states twoFrames) <= stack.Size (states m') /\
    forall i, 0 <= i < stack.Size (states twoFrames) - 1 ->
      stack.PeekAt i (states m') = stack.PeekAt i (states twoFrames).
Proof.
  assert (H : not_revert (OpSetBalance alice 7) = true) by reflexivity.
  split; [exact H|].
  exact (writes_stay_in_top_frame ledger0 (OpSetBalance alice 7) twoFrames H).
Defined.

End TopFrameChecked.
